(** * versifi-go: the streaming client (websocket.go) and its signer

    A shallow embedding of the WebSocket client of the Versifi Go SDK:
    the HMAC-SHA256 signer shared with the REST client, the frames the
    client writes, the topic registry and the dispatch of the read loop,
    and the connection supervisor (Connect, authenticate, Disconnect,
    Subscribe, readMessages, keepAlive) as a machine whose steps are the
    critical sections of the Go code. *)

From Stdlib Require Import ZArith Lia Ascii String.
From stdpp Require Import gmap strings list fin_maps.

Local Open Scope Z_scope.

(** ** Bytes and 32-bit words *)

(** A Go [string] is a sequence of bytes: it is a Rocq [string], whose
    characters are the 256 values of [ascii].  [[]byte(s)] is the list of
    their codes. *)
Definition bytes_of_string (s : string) : list Z :=
  map (fun a => Z.of_N (N_of_ascii a)) (list_ascii_of_string s).

Module Sha256.

Definition w32 (x : Z) : Z := x mod 2 ^ 32.
Definition add32 (x y : Z) : Z := w32 (x + y).
Definition rotr (n x : Z) : Z :=
  w32 (Z.lor (Z.shiftr x n) (Z.shiftl x (32 - n))).
Definition shr (n x : Z) : Z := Z.shiftr x n.
Definition not32 (x : Z) : Z := Z.lxor x (2 ^ 32 - 1).

Definition Ch (x y z : Z) : Z := Z.lxor (Z.land x y) (Z.land (not32 x) z).
Definition Maj (x y z : Z) : Z :=
  Z.lxor (Z.lxor (Z.land x y) (Z.land x z)) (Z.land y z).
Definition Sigma0 (x : Z) : Z := Z.lxor (Z.lxor (rotr 2 x) (rotr 13 x)) (rotr 22 x).
Definition Sigma1 (x : Z) : Z := Z.lxor (Z.lxor (rotr 6 x) (rotr 11 x)) (rotr 25 x).
Definition sigma0 (x : Z) : Z := Z.lxor (Z.lxor (rotr 7 x) (rotr 18 x)) (shr 3 x).
Definition sigma1 (x : Z) : Z := Z.lxor (Z.lxor (rotr 17 x) (rotr 19 x)) (shr 10 x).

(** The constants of FIPS 180-4, from their definition: the first 32
    bits of the fractional parts of the cube roots of the first 64
    primes, and of the square roots of the first 8 primes for the
    initial chaining value. *)
Definition is_prime (n : nat) : bool :=
  forallb (fun d => negb (Nat.eqb (n mod d) 0)) (seq 2 (n - 2)).

Definition primes : list Z :=
  Eval vm_compute in map Z.of_nat (List.filter is_prime (seq 2 310)).

(** The integer cube root, one bit at a time from bit [bits - 1] down. *)
Fixpoint cube_root (bits : nat) (n r : Z) : Z :=
  match bits with
  | O => r
  | S b =>
      let r' := r + 2 ^ Z.of_nat b in
      cube_root b n (if r' * r' * r' <=? n then r' else r)
  end.

Definition K : list Z :=
  Eval vm_compute in map (fun p => w32 (cube_root 36 (p * 2 ^ 96) 0)) primes.

(** The eight chaining words. *)
Record digest := Digest {
  h0 : Z; h1 : Z; h2 : Z; h3 : Z; h4 : Z; h5 : Z; h6 : Z; h7 : Z }.

Definition init_word (i : nat) : Z := w32 (Z.sqrt (nth i primes 0 * 2 ^ 64)).

Definition init : digest :=
  Eval vm_compute in
    Digest (init_word 0) (init_word 1) (init_word 2) (init_word 3)
           (init_word 4) (init_word 5) (init_word 6) (init_word 7).

(** Padding: the byte 0x80, zeros up to 56 modulo 64, and the length
    in bits as eight big-endian bytes. *)
Definition be_bytes (n : nat) (x : Z) : list Z :=
  map (fun i => Z.shiftr x (8 * Z.of_nat i) mod 256) (rev (seq 0 n)).

Definition pad (msg : list Z) : list Z :=
  let len := Z.of_nat (length msg) in
  let zeros := Z.to_nat ((55 - len) mod 64) in
  msg ++ [0x80] ++ repeat 0 zeros ++ be_bytes 8 (8 * len).

Fixpoint be_words (bs : list Z) : list Z :=
  match bs with
  | a :: b :: c :: d :: rest =>
      (Z.shiftl a 24 + Z.shiftl b 16 + Z.shiftl c 8 + d) :: be_words rest
  | _ => []
  end.

(** The message schedule, built newest word first: [ws] holds
    [W(t-1), W(t-2), ...]. *)
Definition next_w (ws : list Z) : Z :=
  add32 (add32 (sigma1 (nth 1 ws 0)) (nth 6 ws 0))
        (add32 (sigma0 (nth 14 ws 0)) (nth 15 ws 0)).

Fixpoint extend (n : nat) (ws : list Z) : list Z :=
  match n with
  | O => ws
  | S n' => extend n' (next_w ws :: ws)
  end.

Definition schedule (block : list Z) : list Z := rev (extend 48 (rev block)).

Definition round (s : digest) (kw : Z * Z) : digest :=
  let '(k, w) := kw in
  let t1 := add32 (add32 (add32 (h7 s) (Sigma1 (h4 s)))
                         (add32 (Ch (h4 s) (h5 s) (h6 s)) k)) w in
  let t2 := add32 (Sigma0 (h0 s)) (Maj (h0 s) (h1 s) (h2 s)) in
  Digest (add32 t1 t2) (h0 s) (h1 s) (h2 s) (add32 (h3 s) t1) (h4 s) (h5 s) (h6 s).

Definition compress (s : digest) (block : list Z) : digest :=
  let r := fold_left round (combine K (schedule block)) s in
  Digest (add32 (h0 s) (h0 r)) (add32 (h1 s) (h1 r)) (add32 (h2 s) (h2 r))
         (add32 (h3 s) (h3 r)) (add32 (h4 s) (h4 r)) (add32 (h5 s) (h5 r))
         (add32 (h6 s) (h6 r)) (add32 (h7 s) (h7 r)).

Fixpoint blocks (n : nat) (ws : list Z) (s : digest) : digest :=
  match n with
  | O => s
  | S n' => blocks n' (skipn 16 ws) (compress s (firstn 16 ws))
  end.

Definition digest_bytes (s : digest) : list Z :=
  be_bytes 4 (h0 s) ++ be_bytes 4 (h1 s) ++ be_bytes 4 (h2 s) ++ be_bytes 4 (h3 s) ++
  be_bytes 4 (h4 s) ++ be_bytes 4 (h5 s) ++ be_bytes 4 (h6 s) ++ be_bytes 4 (h7 s).

(** [sha256.Sum256]. *)
Definition sum (msg : list Z) : list Z :=
  let ws := be_words (pad msg) in
  digest_bytes (blocks (length ws / 16)%nat ws init).

End Sha256.

(** ** crypto/hmac with SHA-256, and encoding/hex *)

Module Hmac.

Definition block_size : nat := 64.

(** [hmac.New]: a key longer than a block is hashed first; the key is
    then zero-padded to the block size. *)
Definition block_key (key : list Z) : list Z :=
  let k := if (block_size <? length key)%nat then Sha256.sum key else key in
  k ++ repeat 0 (block_size - length k).

Definition xor_pad (p : Z) (k : list Z) : list Z := map (Z.lxor p) k.

Definition sum (key msg : list Z) : list Z :=
  let k := block_key key in
  Sha256.sum (xor_pad 0x5c k ++ Sha256.sum (xor_pad 0x36 k ++ msg)).

End Hmac.

Module Hex.

Definition hextable : string := "0123456789abcdef".

Definition digit (n : Z) : ascii :=
  match String.get (Z.to_nat n) hextable with
  | Some a => a
  | None => "0"%char
  end.

(** [hex.EncodeToString]: two lower-case digits per byte. *)
Fixpoint EncodeToString (bs : list Z) : string :=
  match bs with
  | [] => EmptyString
  | b :: rest => String (digit (Z.shiftr b 4)) (String (digit (Z.land b 15)) (EncodeToString rest))
  end.

End Hex.

(** The body shared, line for line, by the method [sign] of [WsClient]
    in websocket.go and the method [sign] of [Client] in client.go. *)
Definition hmac_sha256_hex (secret payload : string) : string :=
  Hex.EncodeToString (Hmac.sum (bytes_of_string secret) (bytes_of_string payload)).

(** ** time and strconv *)

(** A [time.Time] as an instant: whole seconds since the Unix epoch and
    the nanoseconds within that second.  A [time.Duration] is a number of
    nanoseconds. *)
Record Time := { unix_sec : Z; nsec : Z }.

Definition Second : Z := 1000000000.
Definition Minute : Z := 60 * Second.

(** [Time.Add]: the duration is split by truncated division, the
    nanosecond field is renormalised into [0, 1e9). *)
Definition Time_Add (t : Time) (d : Z) : Time :=
  let dsec := Z.quot d Second in
  let n := nsec t + Z.rem d Second in
  if Second <=? n then {| unix_sec := unix_sec t + dsec + 1; nsec := n - Second |}
  else if n <? 0 then {| unix_sec := unix_sec t + dsec - 1; nsec := n + Second |}
  else {| unix_sec := unix_sec t + dsec; nsec := n |}.

Definition Time_Unix (t : Time) : Z := unix_sec t.

Definition digit_char (d : Z) : ascii := ascii_of_N (48 + Z.to_N d).

Fixpoint format_digits (fuel : nat) (n : Z) (acc : string) : string :=
  match fuel with
  | O => acc
  | S k =>
      let acc' := String (digit_char (n mod 10)) acc in
      if n <? 10 then acc' else format_digits k (n / 10) acc'
  end.

(** [strconv.FormatInt(n, 10)], which is what the verb [%d] of
    [fmt.Sprintf] prints for an [int64]. *)
Definition FormatInt (n : Z) : string :=
  if n <? 0
  then String "-"%char (format_digits (S (Z.to_nat (Z.log2 (- n)))) (- n) EmptyString)
  else format_digits (S (Z.to_nat (Z.log2 n))) n EmptyString.

(** Reading a decimal numeral back, used to state that [FormatInt]
    loses nothing. *)
Definition digit_value (a : ascii) : option Z :=
  let n := Z.of_N (N_of_ascii a) in
  if (48 <=? n) && (n <=? 57) then Some (n - 48) else None.

Fixpoint parse_digits (s : string) (acc : Z) : option Z :=
  match s with
  | EmptyString => Some acc
  | String a rest =>
      match digit_value a with
      | Some d => parse_digits rest (10 * acc + d)
      | None => None
      end
  end.

Definition ParseInt (s : string) : option Z :=
  match s with
  | EmptyString => None
  | String "-"%char EmptyString => None
  | String "-"%char rest => Z.opp <$> parse_digits rest 0
  | _ => parse_digits s 0
  end.

(** [numeral ds n]: [ds] is a non-empty string of digits, not starting
    with a sign, that reads back as [n] after whatever was read before. *)
Definition numeral (ds : string) (n : Z) : Prop :=
  (exists d rest, 0 <= d <= 9 /\ ds = String (digit_char d) rest) /\
  forall tail acc,
    parse_digits (ds ++ tail)%string acc
    = parse_digits tail (acc * 10 ^ Z.of_nat (String.length ds) + n).

(** ** Frames *)

(** The values the client hands to [conn.WriteJSON]: Go maps from string
    to a string or to a slice, and every slice the client builds holds
    strings only. *)
Inductive JValue :=
| JString (s : string)
| JArray (l : list string).

(** [WsResponse], the envelope every inbound frame is decoded into.
    [Message] is an [interface{}] the client only ever prints, so it is
    kept as its printed form. *)
Record WsResponse := { Op : string; Success : bool; Message : string }.

(** An inbound frame: the raw bytes [ReadMessage] returned, and what
    [json.Unmarshal] makes of them as a [WsResponse] ([None] when it
    returns an error).  The decoder is a function of the bytes, so the
    read loop and the auth handler, which both decode the same message,
    see the same result. *)
Record Frame := { raw : string; decoded : option WsResponse }.

(** A Go [error]: [None] is [nil]. *)
Abbreviation error := (option string).

(** ** The client *)

(** A [WsHandler] value stored in the registry. *)
Inductive WsHandler :=
| NilHandler                   (* a nil func *)
| UserHandler (id : nat)       (* a callback supplied by the caller *)
| AuthTempHandler (ch : nat).  (* tempHandler of authenticate, closed over
                                  its channel authResponse *)

Inductive ChanState := Open | Closed.

(** The fields of [WsClient].  [mu] is the granularity of the steps
    below; [Logger] only prints. *)
Record WsClient := mkWsClient {
  APIKey : string;
  APISecret : string;
  BaseURL : string;
  LocalAddr : string;
  conn : option nat;
  isConnected : bool;
  isAuthenticated : bool;
  handlers : gmap string WsHandler;
  errHandler : option nat;
  done : ChanState;
  reconnect : bool;
  reconnectDelay : Z
}.

(** The REST client of client.go, as far as signing goes. *)
Record Client := { ClientAPIKey : string; ClientAPISecret : string }.

Definition set_conn (v : option nat) (c : WsClient) : WsClient :=
  mkWsClient (APIKey c) (APISecret c) (BaseURL c) (LocalAddr c) v (isConnected c)
    (isAuthenticated c) (handlers c) (errHandler c) (done c) (reconnect c) (reconnectDelay c).
Definition set_isConnected (v : bool) (c : WsClient) : WsClient :=
  mkWsClient (APIKey c) (APISecret c) (BaseURL c) (LocalAddr c) (conn c) v
    (isAuthenticated c) (handlers c) (errHandler c) (done c) (reconnect c) (reconnectDelay c).
Definition set_isAuthenticated (v : bool) (c : WsClient) : WsClient :=
  mkWsClient (APIKey c) (APISecret c) (BaseURL c) (LocalAddr c) (conn c) (isConnected c)
    v (handlers c) (errHandler c) (done c) (reconnect c) (reconnectDelay c).
Definition set_handlers (v : gmap string WsHandler) (c : WsClient) : WsClient :=
  mkWsClient (APIKey c) (APISecret c) (BaseURL c) (LocalAddr c) (conn c) (isConnected c)
    (isAuthenticated c) v (errHandler c) (done c) (reconnect c) (reconnectDelay c).
Definition set_errHandler (v : option nat) (c : WsClient) : WsClient :=
  mkWsClient (APIKey c) (APISecret c) (BaseURL c) (LocalAddr c) (conn c) (isConnected c)
    (isAuthenticated c) (handlers c) v (done c) (reconnect c) (reconnectDelay c).
Definition set_done (v : ChanState) (c : WsClient) : WsClient :=
  mkWsClient (APIKey c) (APISecret c) (BaseURL c) (LocalAddr c) (conn c) (isConnected c)
    (isAuthenticated c) (handlers c) (errHandler c) v (reconnect c) (reconnectDelay c).
Definition set_reconnect (v : bool) (c : WsClient) : WsClient :=
  mkWsClient (APIKey c) (APISecret c) (BaseURL c) (LocalAddr c) (conn c) (isConnected c)
    (isAuthenticated c) (handlers c) (errHandler c) (done c) v (reconnectDelay c).

Definition BaseWSMainURL : string := "wss://example.com/v1/ws".

Definition NewWsClient (apiKey apiSecret : string) : WsClient :=
  {| APIKey := apiKey; APISecret := apiSecret; BaseURL := BaseWSMainURL;
     LocalAddr := EmptyString; conn := None; isConnected := false;
     isAuthenticated := false; handlers := ∅; errHandler := None; done := Open;
     reconnect := true; reconnectDelay := 5 * Second |}.

Definition IsConnected (c : WsClient) : bool := isConnected c.
Definition IsAuthenticated (c : WsClient) : bool := isAuthenticated c.

(** [sign] of the streaming client and of the REST client. *)
Definition sign (c : WsClient) (payload : string) : string :=
  hmac_sha256_hex (APISecret c) payload.

Definition Client_sign (c : Client) (payload : string) : string :=
  hmac_sha256_hex (ClientAPISecret c) payload.

(** The first lines of [authenticate]: the expiry, the signed payload
    and the frame, for the clock reading [now]. *)
Definition auth_expires (now : Time) : Z := Time_Unix (Time_Add now (5 * Minute)).

Definition auth_payload (expires : Z) : string :=
  ("GET/realtime" ++ FormatInt expires)%string.

Definition authMsg (c : WsClient) (now : Time) : gmap string JValue :=
  let expires := auth_expires now in
  let payload := auth_payload expires in
  let signature := sign c payload in
  <["args" := JArray [APIKey c; FormatInt expires; signature]]>
    (<["op" := JString "auth"]> ∅).

Definition subscribeMsg (topic : string) : gmap string JValue :=
  <["args" := JArray [topic]]> (<["op" := JString "subscribe"]> ∅).

Definition pingMsg : gmap string JValue := <["op" := JString "ping"]> ∅.

(** ** What the client does to the outside *)

Inductive Event :=
| EvDial (url : string)                           (* dialer.Dial *)
| EvWriteJSON (k : nat) (v : gmap string JValue)  (* conn.WriteJSON on socket k *)
| EvWriteClose (k : nat)                          (* the close frame *)
| EvClose (k : nat)                               (* conn.Close *)
| EvInvoke (id : nat) (message : string)          (* a caller's handler is run *)
| EvErrHandler (id : nat) (e : string)            (* the error handler is run *)
| EvSleep (d : Z)                                 (* time.Sleep *)
| EvReturn (call : string) (r : error).           (* a call returns to the caller *)

(** Every event is recorded with the client as it was at that moment. *)
Abbreviation Trace := (list (WsClient * Event)).

Definition stamp (c : WsClient) (evs : list Event) : Trace := map (pair c) evs.

(** ** The methods that run as one critical section *)

(** [SendJSON], given what [conn.WriteJSON] returns when it is reached. *)
Definition SendJSON (c : WsClient) (v : gmap string JValue) (werr : error)
  : error * Trace :=
  match isConnected c, conn c with
  | true, Some k => (werr, stamp c [EvWriteJSON k v])
  | _, _ => (Some "not connected"%string, [])
  end.

Definition SendPing (c : WsClient) (werr : error) : error * Trace :=
  SendJSON c pingMsg werr.

(** A call either returns or panics. *)
Inductive Outcome :=
| Returned (r : error)
| Panicked (msg : string).

(** [Disconnect], given what [conn.Close] returns when it is reached.
    An error of the close frame's write is logged and otherwise ignored.
    [close] of a channel that is already closed panics. *)
Definition Disconnect (c : WsClient) (close_err : error) : WsClient * Outcome * Trace :=
  if negb (isConnected c) then (c, Returned None, [])
  else
    let c1 := set_reconnect false c in
    match done c1 with
    | Closed => (c1, Panicked "close of closed channel", [])
    | Open =>
        let c2 := set_done Closed c1 in
        let cleared := set_conn None (set_isAuthenticated false (set_isConnected false c2)) in
        match conn c2 with
        | Some k =>
            let tr := stamp c2 [EvWriteClose k; EvClose k] in
            match close_err with
            | Some e => (c2, Returned (Some ("failed to close connection: " ++ e)%string), tr)
            | None => (cleared, Returned None, tr)
            end
        | None => (cleared, Returned None, [])
        end
    end.

Definition Unsubscribe (c : WsClient) (topic : string) : WsClient * error :=
  (set_handlers (delete topic (handlers c)) c, None).

Definition SetErrorHandler (c : WsClient) (h : option nat) : WsClient :=
  set_errHandler h c.

(** [Subscribe] when nothing else runs in between its three critical
    sections: the check, the store into the registry, the send. *)
Definition Subscribe (c : WsClient) (topic : string) (handler : WsHandler) (werr : error)
  : WsClient * error * Trace :=
  if negb (isAuthenticated c) then (c, Some "not authenticated"%string, [])
  else
    let c1 := set_handlers (<[topic := handler]> (handlers c)) c in
    let '(r, tr) := SendJSON c1 (subscribeMsg topic) werr in
    (c1, r, tr).

Definition SubscribeExecutionReport (c : WsClient) (handler : WsHandler) (werr : error) :=
  Subscribe c "execution_report" handler werr.

Definition SubscribeAnalytics (c : WsClient) (handler : WsHandler) (werr : error) :=
  Subscribe c "analytics" handler werr.

(** The test [exists && handler != nil] of the read loop. *)
Definition lookup_handler (c : WsClient) (topic : string) : option WsHandler :=
  match handlers c !! topic with
  | Some NilHandler => None
  | Some h => Some h
  | None => None
  end.

(** ** The goroutines *)

(** [Connect] is run by a caller, or by the deferred function of
    [readMessages] when it reconnects. *)
Inductive Caller := ByUser | ByReadLoop.

(** Where a goroutine stands.  Each point is followed by one step: a
    critical section of [mu], an unlocked read of a field, a channel
    operation, or a call into the socket. *)
Inductive Pc :=
| Exited
(* Connect *)
| Connect_entry (by_ : Caller)                  (* lock, test isConnected *)
| Connect_dial (by_ : Caller)                   (* dialer.Dial *)
| Connect_install (by_ : Caller) (k : nat)      (* lock, conn and isConnected *)
| Connect_go_read (by_ : Caller)                (* go c.readMessages() *)
| authenticate_send (by_ : Caller)              (* build the frame, SendJSON *)
| authenticate_register (by_ : Caller)          (* make the channel, store tempHandler *)
| authenticate_wait (by_ : Caller) (ch : nat)   (* select: the channel or the timer *)
| authenticate_cleanup (by_ : Caller) (r : error)  (* lock, delete the handler, return *)
| Connect_auth_failed (by_ : Caller) (e : string)  (* c.Disconnect() *)
| Connect_keepalive (by_ : Caller)              (* go c.keepAlive() *)
| Connect_return (by_ : Caller) (r : error)
(* Subscribe *)
| Subscribe_entry (topic : string) (h : WsHandler)
| Subscribe_store (topic : string) (h : WsHandler)
| Subscribe_send (topic : string)
(* readMessages *)
| read_select                                   (* select on done, else default *)
| read_load                                     (* evaluate c.conn *)
| read_blocked (k : nat)                        (* inside ReadMessage on socket k *)
| read_dispatch (f : Frame)                     (* decode, first lookup *)
| read_wildcard (f : Frame)                     (* lookup of "*" *)
| read_invoke (h : WsHandler) (f : Frame) (next : Pc)  (* handler(message) *)
| temp_send (ch : nat) (r : error) (next : Pc)  (* authResponse <- r in tempHandler *)
| defer_clear                                   (* deferred: lock, clear both flags *)
| defer_reconnect                               (* deferred: if c.reconnect ... *)
(* keepAlive *)
| keep_select
| keep_check
| keep_ping.

(** What the outside contributes to a step. *)
Inductive Env :=
| Tau                                  (* nothing: the step reads the client alone *)
| DialOk
| DialErr (e : string)
| Now (t : Time) (werr : error)        (* time.Now(), and the result of the write *)
| WriteRes (werr : error)              (* the result of conn.WriteJSON *)
| CloseRes (close_err : error)         (* the result of conn.Close *)
| RecvMsg (f : Frame)                  (* ReadMessage returns a message *)
| RecvErr (e : string)                 (* ReadMessage returns an error *)
| ChanRecv                             (* select takes the channel case *)
| Timeout                              (* select takes the timer case *)
| Tick                                 (* select takes the ticker case *)
| DoneSig.                             (* select takes the done case *)

(** The calls a caller's goroutine makes, and its assignments to the
    package variable [WebsocketKeepalive]. *)
Inductive ApiCall :=
| CallConnect
| CallDisconnect (close_err : error)
| CallSubscribe (topic : string) (h : WsHandler)
| CallUnsubscribe (topic : string)
| CallSetErrorHandler (h : option nat)
| CallSendPing (werr : error)
| SetWebsocketKeepalive (b : bool).

Inductive Action :=
| Call (op : ApiCall)
| Run (tid : nat) (e : Env).

(** The program: the client, its goroutines, the [authResponse] channels
    made so far (each buffered, of capacity one), the number of sockets
    dialed so far, the trace, the panic that ended it, if any, and the
    package variable [WebsocketKeepalive], which the program may assign
    at any time. *)
Record World := mkWorld {
  client : WsClient;
  threads : list Pc;
  chans : list (list error);
  sockets : nat;
  trace : Trace;
  panicked : option string;
  WebsocketKeepalive : bool
}.

(** The program as it starts: [WebsocketKeepalive] is declared [true]. *)
Definition init_world (c : WsClient) : World := mkWorld c [] [] 0%nat [] None true.

Definition with_client (c : WsClient) (w : World) : World :=
  mkWorld c (threads w) (chans w) (sockets w) (trace w) (panicked w)
          (WebsocketKeepalive w).
Definition with_threads (ts : list Pc) (w : World) : World :=
  mkWorld (client w) ts (chans w) (sockets w) (trace w) (panicked w)
          (WebsocketKeepalive w).
Definition with_chans (cs : list (list error)) (w : World) : World :=
  mkWorld (client w) (threads w) cs (sockets w) (trace w) (panicked w)
          (WebsocketKeepalive w).
Definition with_sockets (n : nat) (w : World) : World :=
  mkWorld (client w) (threads w) (chans w) n (trace w) (panicked w)
          (WebsocketKeepalive w).
Definition with_panic (m : string) (w : World) : World :=
  mkWorld (client w) (threads w) (chans w) (sockets w) (trace w) (Some m)
          (WebsocketKeepalive w).
Definition with_keepalive (b : bool) (w : World) : World :=
  mkWorld (client w) (threads w) (chans w) (sockets w) (trace w) (panicked w) b.

(** Events of the current moment, and events already stamped. *)
Definition emit (evs : list Event) (w : World) : World :=
  mkWorld (client w) (threads w) (chans w) (sockets w)
          (trace w ++ stamp (client w) evs) (panicked w) (WebsocketKeepalive w).
Definition record (tr : Trace) (w : World) : World :=
  mkWorld (client w) (threads w) (chans w) (sockets w) (trace w ++ tr) (panicked w)
          (WebsocketKeepalive w).

Definition goto (tid : nat) (pc : Pc) (w : World) : World :=
  with_threads (<[tid := pc]> (threads w)) w.
Definition spawn (pc : Pc) (w : World) : World :=
  with_threads (threads w ++ [pc]) w.

(** [if c.errHandler != nil { c.errHandler(err) }] *)
Definition call_errHandler (e : string) (w : World) : World :=
  match errHandler (client w) with
  | Some id => emit [EvErrHandler id e] w
  | None => w
  end.

(** The first lookup of the read loop for a decoded frame, and where the
    loop goes from there. *)
Definition dispatch (c : WsClient) (f : Frame) : Pc :=
  match decoded f with
  | None => read_select
  | Some r =>
      if String.eqb (Op r) "auth" then
        match lookup_handler c "__auth__" with
        | Some h => read_invoke h f read_select
        | None => read_select
        end
      else if String.eqb (Op r) "ping" then read_select
      else if String.eqb (Op r) "subscribe" then read_select
      else if String.eqb (Op r) "execution_report" then
        match lookup_handler c "execution_report" with
        | Some h => read_invoke h f (read_wildcard f)
        | None => read_wildcard f
        end
      else
        match lookup_handler c (Op r) with
        | Some h => read_invoke h f read_select
        | None => read_wildcard f
        end
  end.

Definition dispatch_wildcard (c : WsClient) (f : Frame) : Pc :=
  match lookup_handler c "*" with
  | Some h => read_invoke h f read_select
  | None => read_select
  end.

(** One step of goroutine [tid], standing at [pc], with [e] from the
    outside.  [None]: the step is not enabled (the goroutine is blocked,
    or [e] is not what this point consumes). *)
Definition thread_step (tid : nat) (pc : Pc) (e : Env) (w : World) : option World :=
  let c := client w in
  match pc, e with
  (* Connect *)
  | Connect_entry by_, Tau =>
      if isConnected c
      then Some (goto tid (Connect_return by_ (Some "already connected"%string)) w)
      else Some (goto tid (Connect_dial by_) w)
  | Connect_dial by_, DialOk =>
      Some (goto tid (Connect_install by_ (sockets w))
              (with_sockets (S (sockets w)) (emit [EvDial (BaseURL c)] w)))
  | Connect_dial by_, DialErr err =>
      Some (goto tid (Connect_return by_ (Some ("failed to connect: " ++ err)%string))
              (emit [EvDial (BaseURL c)] w))
  | Connect_install by_ k, Tau =>
      Some (goto tid (Connect_go_read by_)
              (with_client (set_isConnected true (set_conn (Some k) c)) w))
  | Connect_go_read by_, Tau =>
      Some (spawn read_select (goto tid (authenticate_send by_) w))
  | authenticate_send by_, Now t werr =>
      let '(r, tr) := SendJSON c (authMsg c t) werr in
      match r with
      | Some err => Some (goto tid (Connect_auth_failed by_ err) (record tr w))
      | None => Some (goto tid (authenticate_register by_) (record tr w))
      end
  | authenticate_register by_, Tau =>
      let ch := length (chans w) in
      Some (goto tid (authenticate_wait by_ ch)
              (with_chans (chans w ++ [[]])
                 (with_client (set_handlers (<["__auth__"%string := AuthTempHandler ch]> (handlers c)) c) w)))
  | authenticate_wait by_ ch, ChanRecv =>
      match chans w !! ch with
      | Some (r :: rest) =>
          Some (goto tid (authenticate_cleanup by_ r) (with_chans (<[ch := rest]> (chans w)) w))
      | _ => None
      end
  | authenticate_wait by_ ch, Timeout =>
      Some (goto tid (authenticate_cleanup by_ (Some "authentication timeout"%string)) w)
  | authenticate_cleanup by_ r, Tau =>
      let w' := with_client (set_handlers (delete "__auth__"%string (handlers c)) c) w in
      match r with
      | Some err => Some (goto tid (Connect_auth_failed by_ err) w')
      | None => Some (goto tid (Connect_keepalive by_) w')
      end
  | Connect_auth_failed by_ err, CloseRes close_err =>
      match Disconnect c close_err with
      | (c', Returned _, tr) =>
          Some (goto tid (Connect_return by_ (Some ("authentication failed: " ++ err)%string))
                  (with_client c' (record tr w)))
      | (c', Panicked m, tr) => Some (with_panic m (with_client c' (record tr w)))
      end
  | Connect_keepalive by_, Tau =>
      if WebsocketKeepalive w
      then Some (spawn keep_select (goto tid (Connect_return by_ None) w))
      else Some (goto tid (Connect_return by_ None) w)
  | Connect_return ByUser r, Tau =>
      Some (goto tid Exited (emit [EvReturn "Connect" r] w))
  | Connect_return ByReadLoop r, Tau =>
      match r with
      | Some err => Some (goto tid Exited (call_errHandler err w))
      | None => Some (goto tid Exited w)
      end
  (* Subscribe *)
  | Subscribe_entry topic h, Tau =>
      if negb (isAuthenticated c)
      then Some (goto tid Exited (emit [EvReturn "Subscribe" (Some "not authenticated"%string)] w))
      else Some (goto tid (Subscribe_store topic h) w)
  | Subscribe_store topic h, Tau =>
      Some (goto tid (Subscribe_send topic)
              (with_client (set_handlers (<[topic := h]> (handlers c)) c) w))
  | Subscribe_send topic, WriteRes werr =>
      let '(r, tr) := SendJSON c (subscribeMsg topic) werr in
      Some (goto tid Exited (emit [EvReturn "Subscribe" r] (record tr w)))
  (* readMessages *)
  | read_select, Tau =>
      match done c with
      | Closed => Some (goto tid defer_clear w)
      | Open => Some (goto tid read_load w)
      end
  | read_load, Tau =>
      match conn c with
      | Some k => Some (goto tid (read_blocked k) w)
      | None => Some (with_panic "invalid memory address or nil pointer dereference" w)
      end
  | read_blocked k, RecvMsg f => Some (goto tid (read_dispatch f) w)
  | read_blocked k, RecvErr err => Some (goto tid defer_clear (call_errHandler err w))
  | read_dispatch f, Tau => Some (goto tid (dispatch c f) w)
  | read_wildcard f, Tau => Some (goto tid (dispatch_wildcard c f) w)
  | read_invoke h f next, Tau =>
      match h with
      | NilHandler => Some (with_panic "invalid memory address or nil pointer dereference" w)
      | UserHandler id => Some (goto tid next (emit [EvInvoke id (raw f)] w))
      | AuthTempHandler ch =>
          match decoded f with
          | None => Some (goto tid (temp_send ch (Some "failed to parse auth response"%string) next) w)
          | Some r =>
              if String.eqb (Op r) "auth" then
                if Success r
                then Some (goto tid (temp_send ch None next)
                             (with_client (set_isAuthenticated true c) w))
                else Some (goto tid (temp_send ch (Some ("authentication failed: " ++ Message r)%string) next) w)
              else Some (goto tid next w)
          end
      end
  | temp_send ch r next, Tau =>
      match chans w !! ch with
      | Some [] => Some (goto tid next (with_chans (<[ch := [r]]> (chans w)) w))
      | _ => None
      end
  | defer_clear, Tau =>
      Some (goto tid defer_reconnect
              (with_client (set_isAuthenticated false (set_isConnected false c)) w))
  | defer_reconnect, Tau =>
      if reconnect c
      then Some (goto tid (Connect_entry ByReadLoop) (emit [EvSleep (reconnectDelay c)] w))
      else Some (goto tid Exited w)
  (* keepAlive *)
  | keep_select, Tick => Some (goto tid keep_check w)
  | keep_select, DoneSig =>
      match done c with
      | Closed => Some (goto tid Exited w)
      | Open => None
      end
  | keep_check, Tau =>
      if isConnected c then Some (goto tid keep_ping w) else Some (goto tid Exited w)
  | keep_ping, WriteRes werr =>
      let '(r, tr) := SendPing c werr in
      match r with
      | Some err => Some (goto tid Exited (call_errHandler err (record tr w)))
      | None => Some (goto tid keep_select (record tr w))
      end
  | _, _ => None
  end.

(** A call by a caller's goroutine: [Connect] and [Subscribe] start a
    goroutine of several steps, the others are one critical section. *)
Definition call_step (op : ApiCall) (w : World) : option World :=
  let c := client w in
  match op with
  | CallConnect => Some (spawn (Connect_entry ByUser) w)
  | CallSubscribe topic h => Some (spawn (Subscribe_entry topic h) w)
  | CallDisconnect close_err =>
      match Disconnect c close_err with
      | (c', Returned r, tr) =>
          Some (emit [EvReturn "Disconnect" r] (with_client c' (record tr w)))
      | (c', Panicked m, tr) => Some (with_panic m (with_client c' (record tr w)))
      end
  | CallUnsubscribe topic =>
      let '(c', r) := Unsubscribe c topic in
      Some (emit [EvReturn "Unsubscribe" r] (with_client c' w))
  | CallSetErrorHandler h => Some (with_client (SetErrorHandler c h) w)
  | CallSendPing werr =>
      let '(r, tr) := SendPing c werr in
      Some (emit [EvReturn "SendPing" r] (record tr w))
  | SetWebsocketKeepalive b => Some (with_keepalive b w)
  end.

(** A panic ends the program. *)
Definition step (a : Action) (w : World) : option World :=
  match panicked w with
  | Some _ => None
  | None =>
      match a with
      | Call op => call_step op w
      | Run tid e =>
          match threads w !! tid with
          | Some pc => thread_step tid pc e w
          | None => None
          end
      end
  end.

Fixpoint run (acts : list Action) (w : World) : option World :=
  match acts with
  | [] => Some w
  | a :: rest =>
      match step a w with
      | Some w' => run rest w'
      | None => None
      end
  end.

(** The states the program can be in. *)
Definition reachable (c0 : WsClient) (w : World) : Prop :=
  exists acts, run acts (init_world c0) = Some w.

(** ** Observations on traces and worlds *)

Definition is_dial (ev : Event) : bool :=
  match ev with EvDial _ => true | _ => false end.

Definition is_write (ev : Event) : bool :=
  match ev with
  | EvWriteJSON _ _ | EvWriteClose _ => true
  | _ => false
  end.

(** The number of dial attempts, and the events without their stamps. *)
Definition dials (tr : Trace) : nat := length (List.filter (fun x => is_dial (snd x)) tr).
Definition events (tr : Trace) : list Event := map snd tr.

Definition is_exited (pc : Pc) : bool :=
  match pc with Exited => true | _ => false end.

(** No goroutine of the client is left. *)
Definition quiescent (w : World) : bool := forallb is_exited (threads w).

Definition is_call_Disconnect (a : Action) : bool :=
  match a with Call (CallDisconnect _) => true | _ => false end.

(** The step runs the body of [Disconnect]: the caller called it, or
    [Connect] calls it after [authenticate] returned an error. *)
Definition runs_Disconnect (a : Action) (w : World) : bool :=
  match a with
  | Call (CallDisconnect _) => true
  | Run tid (CloseRes _) =>
      match threads w !! tid with
      | Some (Connect_auth_failed _ _) => true
      | _ => false
      end
  | _ => false
  end.

(** ** Frames and schedules used in the examples *)

Definition dquote : string := String (ascii_of_nat 34) EmptyString.

(** The text of an envelope with the given operation, success flag and
    message (already JSON). *)
Definition envelope_text (op : string) (success : bool) (message : string) : string :=
  ("{" ++ dquote ++ "op" ++ dquote ++ ":" ++ dquote ++ op ++ dquote ++ ","
   ++ dquote ++ "success" ++ dquote ++ ":" ++ (if success then "true" else "false") ++ ","
   ++ dquote ++ "message" ++ dquote ++ ":" ++ message ++ "}")%string.

Definition envelope (op : string) (success : bool) : Frame :=
  {| raw := envelope_text op success "{}";
     decoded := Some {| Op := op; Success := success; Message := "map[]" |} |}.

Definition auth_ok : Frame := envelope "auth" true.
Definition auth_rejected : Frame := envelope "auth" false.

Definition clock : Time := {| unix_sec := 1700000000; nsec := 123456789 |}.

Definition fresh : World := init_world (NewWsClient "key" "secret").

(** [Connect] up to the point where [authenticate] waits: goroutine 0 is
    the caller in [Connect], goroutine 1 the read loop it started, now
    blocked in [ReadMessage] on socket 0. *)
Definition connect_until_wait : list Action :=
  [ Call CallConnect;
    Run 0 Tau;                  (* not connected *)
    Run 0 DialOk;               (* socket 0 *)
    Run 0 Tau;                  (* conn, isConnected *)
    Run 0 Tau;                  (* go c.readMessages() *)
    Run 0 (Now clock None);     (* the auth frame is written *)
    Run 0 Tau;                  (* tempHandler stored, channel 0 *)
    Run 1 Tau;                  (* done is open *)
    Run 1 Tau ]%nat.            (* c.conn.ReadMessage() *)

(** The server confirms; [Connect] returns nil and has started
    goroutine 2, [keepAlive]. *)
Definition session_up : list Action :=
  connect_until_wait ++
  [ Run 1 (RecvMsg auth_ok);
    Run 1 Tau;                  (* lookup of __auth__ *)
    Run 1 Tau;                  (* tempHandler: isAuthenticated *)
    Run 1 Tau;                  (* authResponse <- nil *)
    Run 0 ChanRecv;
    Run 0 Tau;                  (* delete __auth__ *)
    Run 0 Tau;                  (* go c.keepAlive() *)
    Run 0 Tau;                  (* return nil *)
    Run 1 Tau;                  (* the read loop goes round *)
    Run 1 Tau ]%nat.

(** A caller subscribes a handler to "analytics" and one to "*"
    (goroutines 3 and 4), and the server sends an analytics frame. *)
Definition analytics_frame : Frame := envelope "analytics" true.
Definition execution_report_frame : Frame := envelope "execution_report" true.

Definition subscribe_both (topic : string) : list Action :=
  [ Call (CallSubscribe topic (UserHandler 1));
    Run 3 Tau; Run 3 Tau; Run 3 (WriteRes None);
    Call (CallSubscribe "*" (UserHandler 2));
    Run 4 Tau; Run 4 Tau; Run 4 (WriteRes None) ]%nat.

Definition deliver (f : Frame) : list Action :=
  [ Run 1 (RecvMsg f);
    Run 1 Tau;                  (* decode, first lookup *)
    Run 1 Tau;                  (* the handler found, or the lookup of "*" *)
    Run 1 Tau;
    Run 1 Tau ]%nat.

Definition is_invoke (ev : Event) : bool :=
  match ev with EvInvoke _ _ => true | _ => false end.

Definition invocations (w : World) : list Event :=
  List.filter is_invoke (events (trace w)).

(** The confirmation arrives as the ten seconds run out: the read loop
    has fetched tempHandler when [authenticate] takes the timer case,
    [Connect] disconnects, and then the read loop runs the handler. *)
Definition late_confirmation : list Action :=
  connect_until_wait ++
  [ Run 1 (RecvMsg auth_ok);
    Run 1 Tau;                  (* lookup of __auth__: found *)
    Run 0 Timeout;
    Run 0 Tau;                  (* delete __auth__ *)
    Run 0 (CloseRes None);      (* c.Disconnect() *)
    Run 1 Tau ]%nat.            (* handler(message) *)

(** The server rejects the authentication. *)
Definition rejected_authentication : list Action :=
  connect_until_wait ++
  [ Run 1 (RecvMsg auth_rejected);
    Run 1 Tau;                  (* lookup of __auth__ *)
    Run 1 Tau;                  (* tempHandler *)
    Run 1 Tau;                  (* authResponse <- error *)
    Run 0 ChanRecv;
    Run 0 Tau;                  (* delete __auth__ *)
    Run 0 (CloseRes None);      (* c.Disconnect() *)
    Run 0 Tau ]%nat.            (* return the error *)

(** The server never answers. *)
Definition authentication_timeout : list Action :=
  connect_until_wait ++
  [ Run 0 Timeout;
    Run 0 Tau;
    Run 0 (CloseRes None);
    Run 0 Tau ]%nat.

(** An established session loses its socket, and the one reconnection
    attempt cannot dial; then the ticker of [keepAlive] fires. *)
Definition lost_and_refused : list Action :=
  session_up ++
  [ Run 1 (RecvErr "unexpected EOF");
    Run 1 Tau;                  (* deferred: clear the flags *)
    Run 1 Tau;                  (* c.reconnect: sleep *)
    Run 1 Tau;                  (* Connect: not connected *)
    Run 1 (DialErr "connection refused");
    Run 1 Tau;                  (* reconnection failed *)
    Run 2 Tick;
    Run 2 Tau ]%nat.            (* keepAlive: not connected *)

(** Whether some step of a run executes the body of [Disconnect] on a
    connected client. *)
Fixpoint disconnects (acts : list Action) (w : World) : bool :=
  match acts with
  | [] => false
  | a :: rest =>
      (runs_Disconnect a w && isConnected (client w))
      || match step a w with
         | Some w' => disconnects rest w'
         | None => false
         end
  end.

(** The world a schedule leads to from the fresh client. *)
Definition outcome (acts : list Action) : World :=
  match run acts fresh with
  | Some w => w
  | None => fresh
  end.

(** The operations the read loop answers itself. *)
Definition is_control (op : string) : bool :=
  String.eqb op "auth" || String.eqb op "ping" || String.eqb op "subscribe".

(** The world after the read loop of goroutine [tid] failed with [e]
    and its one reconnection attempt failed to dial with [e']. *)
Definition after_refused_retry (w : World) (tid : nat) (e e' : string) : World :=
  let c' := set_isAuthenticated false (set_isConnected false (client w)) in
  goto tid Exited
    (call_errHandler ("failed to connect: " ++ e')
       (emit [EvDial (BaseURL (client w))]
          (emit [EvSleep (reconnectDelay (client w))]
             (with_client c' (call_errHandler e w))))).

(** ** Subscribe among the other goroutines *)

(** Whether action [a] is a step of goroutine [tid]. *)
Definition by_thread (tid : nat) (a : Action) : bool :=
  match a with
  | Run t _ => Nat.eqb t tid
  | Call _ => false
  end.

(** Whether action [a], taken in world [w], writes the registry entry
    of [topic]: an [Unsubscribe] of the topic, the store of a
    [Subscribe] of the topic and, for the name "__auth__", the store and
    the delete of [authenticate].  No other step writes the registry. *)
Definition writes_entry (topic : string) (w : World) (a : Action) : bool :=
  match a with
  | Call (CallUnsubscribe t) => String.eqb t topic
  | Run tid Tau =>
      match threads w !! tid with
      | Some (Subscribe_store t _) => String.eqb t topic
      | Some (authenticate_register _) | Some (authenticate_cleanup _ _) =>
          String.eqb "__auth__" topic
      | _ => false
      end
  | _ => false
  end.

(** A run none of whose steps writes the entry of [topic]. *)
Fixpoint entry_untouched (topic : string) (acts : list Action) (w : World) : bool :=
  match acts with
  | [] => true
  | a :: rest =>
      negb (writes_entry topic w a) &&
      match step a w with
      | Some w' => entry_untouched topic rest w'
      | None => true
      end
  end.

(** What the last step of [Subscribe] adds to the trace. *)
Definition Subscribe_send_events (c : WsClient) (frame : gmap string JValue) (werr : error)
  : list Event :=
  match isConnected c, conn c with
  | true, Some k => [EvWriteJSON k frame; EvReturn "Subscribe" werr]
  | _, _ => [EvReturn "Subscribe" (Some "not connected"%string)]
  end.

(** A session is up and the caller subscribes to "analytics" (goroutine
    3) while another goroutine of the caller unsubscribes the topic:
    the [Unsubscribe] runs after goroutine 3 has stored the handler and
    before it sends. *)
Definition Subscribe_called : list Action :=
  session_up ++ [ Call (CallSubscribe "analytics" (UserHandler 1)) ].

Definition unsubscribe_in_the_gap : list Action :=
  Subscribe_called ++
  [ Run 3 Tau;                  (* authenticated *)
    Run 3 Tau;                  (* handlers["analytics"] = handler *)
    Call (CallUnsubscribe "analytics");
    Run 3 (WriteRes None) ]%nat.  (* the subscribe frame is written *)

(** The first [Disconnect] fails to close the socket, the caller calls
    it again. *)
Definition close_failed : list Action :=
  session_up ++ [ Call (CallDisconnect (Some "use of closed network connection"%string)) ].

Definition close_failed_then_again : list Action :=
  close_failed ++ [ Call (CallDisconnect None) ].

(** ** Further observations *)

(** A write to a socket happens on a connected client and on the socket
    the client holds at that moment. *)
Definition write_ok (x : WsClient * Event) : Prop :=
  match snd x with
  | EvWriteJSON k _ | EvWriteClose k => isConnected (fst x) = true /\ conn (fst x) = Some k
  | _ => True
  end.

(** After a failed authentication the caller calls [Connect] again
    (goroutine 2); it dials, and starts a read loop (goroutine 3). *)
Definition reconnect_by_caller : list Action :=
  [ Call CallConnect; Run 2 Tau; Run 2 DialOk; Run 2 Tau; Run 2 Tau ]%nat.

(** The read loop has fetched tempHandler for the confirmation. *)
Definition confirmation_fetched : list Action :=
  connect_until_wait ++ [ Run 1 (RecvMsg auth_ok); Run 1 Tau ]%nat.

(** ** net/url and net/http, as far as the REST client uses them *)

Definition code (a : ascii) : Z := Z.of_N (N_of_ascii a).

Definition is_alnum (a : ascii) : bool :=
  let n := code a in
  ((97 <=? n) && (n <=? 122)) || ((65 <=? n) && (n <=? 90)) || ((48 <=? n) && (n <=? 57)).

(** [shouldEscape(c, encodeQueryComponent)]: everything but the
    unreserved characters is escaped. *)
Definition shouldEscape (a : ascii) : bool :=
  negb (is_alnum a || Ascii.eqb a "-" || Ascii.eqb a "_" || Ascii.eqb a "." || Ascii.eqb a "~").

Definition upperhex : string := "0123456789ABCDEF".

Definition upper_digit (n : Z) : ascii :=
  match String.get (Z.to_nat n) upperhex with
  | Some a => a
  | None => "0"%char
  end.

(** [url.QueryEscape]. *)
Fixpoint QueryEscape (s : string) : string :=
  match s with
  | EmptyString => EmptyString
  | String a rest =>
      if Ascii.eqb a " " then String "+" (QueryEscape rest)
      else if shouldEscape a
           then String "%" (String (upper_digit (Z.shiftr (code a) 4))
                              (String (upper_digit (Z.land (code a) 15)) (QueryEscape rest)))
           else String a (QueryEscape rest)
  end.

(** [sort.Strings] on the keys of a map: insertion into a list ordered
    by the bytes of the strings. *)
Fixpoint insert_sorted (k : string) (l : list string) : list string :=
  match l with
  | [] => [k]
  | x :: rest => if String.leb k x then k :: l else x :: insert_sorted k rest
  end.

Definition sorted_keys {A} (m : gmap string A) : list string :=
  foldr insert_sorted [] (map fst (map_to_list m)).

(** [url.Values.Encode]: the keys in sorted order, each value as
    [key=value] with both escaped, joined by [&]. *)
Definition write_pair (buf key value : string) : string :=
  ((if String.eqb buf "" then buf else buf ++ "&") ++ key ++ "=" ++ QueryEscape value)%string.

Definition Values_Encode (v : gmap string (list string)) : string :=
  foldl (fun buf k =>
           foldl (fun b x => write_pair b (QueryEscape k) x) buf (default [] (v !! k)))
        EmptyString (sorted_keys v).

(** [validHeaderFieldByte]: the token characters of RFC 7230. *)
Definition validHeaderFieldByte (a : ascii) : bool :=
  is_alnum a ||
  existsb (Ascii.eqb a) (list_ascii_of_string "!#$%&'*+-.^_`|~").

Definition to_upper (a : ascii) : ascii :=
  let n := code a in
  if (97 <=? n) && (n <=? 122) then ascii_of_N (Z.to_N (n - 32)) else a.

Definition to_lower (a : ascii) : ascii :=
  let n := code a in
  if (65 <=? n) && (n <=? 90) then ascii_of_N (Z.to_N (n + 32)) else a.

Fixpoint canonical_from (upper : bool) (s : string) : string :=
  match s with
  | EmptyString => EmptyString
  | String a rest =>
      let a' := if upper then to_upper a else to_lower a in
      String a' (canonical_from (Ascii.eqb a' "-") rest)
  end.

(** [textproto.CanonicalMIMEHeaderKey]: a key with a byte that is not a
    token character is left alone; otherwise the first letter and every
    letter after a hyphen are upper case and the rest lower case. *)
Definition CanonicalMIMEHeaderKey (s : string) : string :=
  if forallb validHeaderFieldByte (list_ascii_of_string s)
  then canonical_from true s else s.

(** [http.Header.Set]. *)
Definition Header_Set (key value : string) (h : gmap string (list string))
  : gmap string (list string) :=
  <[CanonicalMIMEHeaderKey key := [value]]> h.

(** ** request.go *)

Inductive secType := secTypeNone | secTypeAPIKey | secTypeSigned.

(** A [request].  A nil map is [None]; [body] is nil or a
    [bytes.Reader] over the bytes given. *)
Record request := mkRequest {
  method : string;
  endpoint : string;
  query : option (gmap string (list string));
  header : option (gmap string (list string));
  body : option string;
  fullURL : string;
  req_secType : secType
}.

Definition set_query (q : option (gmap string (list string))) (r : request) : request :=
  mkRequest (method r) (endpoint r) q (header r) (body r) (fullURL r) (req_secType r).
Definition set_header (h : option (gmap string (list string))) (r : request) : request :=
  mkRequest (method r) (endpoint r) (query r) h (body r) (fullURL r) (req_secType r).
Definition set_body (b : option string) (r : request) : request :=
  mkRequest (method r) (endpoint r) (query r) (header r) b (fullURL r) (req_secType r).
Definition set_fullURL (u : string) (r : request) : request :=
  mkRequest (method r) (endpoint r) (query r) (header r) (body r) u (req_secType r).

(** [url.Values.Set] after making the map when it is nil. *)
Definition setParam (key value : string) (r : request) : request :=
  set_query (Some (<[key := [value]]> (default ∅ (query r)))) r.

(** A [RequestOption].  The map of [WithHeaders] is given in the order
    in which the range statement happens to visit it. *)
Inductive RequestOption :=
| WithHeader (key value : string)
| WithHeaders (headers : list (string * string)).

Definition apply_option (opt : RequestOption) (r : request) : request :=
  match opt with
  | WithHeader key value => set_header (Some (Header_Set key value (default ∅ (header r)))) r
  | WithHeaders headers =>
      set_header
        (Some (foldl (fun h kv => Header_Set (fst kv) (snd kv) h) (default ∅ (header r)) headers))
        r
  end.

(** ** client.go *)

(** The fields of [Client] that [parseRequest] reads besides the
    credentials. *)
Record RestClient := {
  Credentials : Client;
  RestBaseURL : string;
  UserAgent : string
}.

Definition BaseAPIMainURL : string := "https://api.versifi.io".

Definition NewClient (apiKey apiSecret : string) : RestClient :=
  {| Credentials := {| ClientAPIKey := apiKey; ClientAPISecret := apiSecret |};
     RestBaseURL := BaseAPIMainURL;
     UserAgent := "Versifi/go" |}.

Definition has_query (r : request) : bool :=
  match query r with
  | Some q => negb (Nat.eqb (size q) 0)
  | None => false
  end.

Definition encoded_query (r : request) : string := Values_Encode (default ∅ (query r)).

(** The payload [parseRequest] signs: the encoded query for GET and
    DELETE, the body otherwise. *)
Definition signed_payload (r : request) : string :=
  if String.eqb (method r) "GET" || String.eqb (method r) "DELETE"
  then (if has_query r then encoded_query r else EmptyString)
  else default EmptyString (body r).

(** [parseRequest].  Reading a [bytes.Reader] does not fail, and the
    reader is put back over the same bytes, so there is no error to
    return and [body] is as before. *)
Definition parseRequest (c : RestClient) (r0 : request) (opts : list RequestOption) : request :=
  let r1 := foldl (fun r opt => apply_option opt r) r0 opts in
  let r2 := set_fullURL
              (if has_query r1
               then (RestBaseURL c ++ endpoint r1 ++ "?" ++ encoded_query r1)%string
               else (RestBaseURL c ++ endpoint r1)%string) r1 in
  let h0 := default ∅ (header r2) in
  let h1 := Header_Set "Content-Type" "application/json"
              (Header_Set "User-Agent" (UserAgent c) h0) in
  let h2 := match req_secType r2 with
            | secTypeAPIKey | secTypeSigned =>
                Header_Set "X-VERSIFI-API-KEY" (ClientAPIKey (Credentials c)) h1
            | secTypeNone => h1
            end in
  let h3 := match req_secType r2 with
            | secTypeSigned =>
                Header_Set "X-VERSIFI-API-SIGN"
                  (Client_sign (Credentials c) (signed_payload r2)) h2
            | _ => h2
            end in
  set_header (Some h3) r2.

(** ** The services *)

Definition new_request (m e : string) (b : option string) : request :=
  {| method := m; endpoint := e; query := None; header := None; body := b;
     fullURL := EmptyString; req_secType := secTypeSigned |}.

(** [ListOpenOrdersService] and the request its [Do] builds. *)
Record ListOpenOrdersService := { limit : Z; offset : Z; status : string }.

Definition ListOpenOrders_request (s : ListOpenOrdersService) : request :=
  let r := new_request "GET" "/v2/orders" None in
  let r := if 0 <? limit s then setParam "limit" (FormatInt (limit s)) r else r in
  let r := if 0 <? offset s then setParam "offset" (FormatInt (offset s)) r else r in
  if negb (String.eqb (status s) "") then setParam "status" (status s) r else r.

(** [GetOrderService]. *)
Definition GetOrder_request (orderID : Z) : request :=
  new_request "GET" ("/v2/orders/" ++ FormatInt orderID)%string None.

(** [CancelBatchOrderService]: [orderIDs] is a slice, nil until set. *)
Record CancelBatchOrderService := { orderIDs : option (list Z) }.

Definition OrderIDs (ids : option (list Z)) (s : CancelBatchOrderService)
  : CancelBatchOrderService := {| orderIDs := ids |}.

Definition AddOrderID (id : Z) (s : CancelBatchOrderService) : CancelBatchOrderService :=
  {| orderIDs := Some (default [] (orderIDs s) ++ [id]) |}.

Fixpoint join_ints (ids : list Z) : string :=
  match ids with
  | [] => EmptyString
  | [x] => FormatInt x
  | x :: rest => (FormatInt x ++ "," ++ join_ints rest)%string
  end.

(** [json.Marshal] of a [CancelBatchRequest]: a nil slice is [null]. *)
Definition marshal_CancelBatchRequest (ids : option (list Z)) : string :=
  ("{" ++ dquote ++ "ids" ++ dquote ++ ":"
   ++ match ids with
      | None => "null"
      | Some l => "[" ++ join_ints l ++ "]"
      end ++ "}")%string.

Definition CancelBatch_request (s : CancelBatchOrderService) : request :=
  new_request "DELETE" "/v2/orders/batch" (Some (marshal_CancelBatchRequest (orderIDs s))).

Definition sign_header (r : request) : option (list string) :=
  default ∅ (header r) !! "X-Versifi-Api-Sign"%string.

(** The bytes [QueryEscape] leaves as they are. *)
Definition keeps (a : ascii) : Prop := Ascii.eqb a " " = false /\ shouldEscape a = false.

(** A parameter that may be absent: its part of the encoded query, and
    its entry in the query. *)
Definition param (key : string) (v : option string) : list string :=
  match v with
  | Some x => [(key ++ "=" ++ QueryEscape x)%string]
  | None => []
  end.

Definition with_param (key : string) (v : option string) (q : gmap string (list string))
  : gmap string (list string) :=
  match v with
  | Some x => <[key := [x]]> q
  | None => q
  end.

(** ** order_pair.go *)

Module PairOrder.

Section Values.

(** The values of a [map[string]interface{}], and [float64]: the code
    only ever copies them. *)
Context {V float64 : Type}.

Record PairLeg := {
  Exchange : string;
  Symbol : string;
  OrderType : string;
  LegRatio : option float64;
  MaxPositionLong : option string;
  MaxPositionShort : option string;
  MaxNotionalLong : option string;
  MaxNotionalShort : option string;
  Params : option (gmap string V)
}.

(** [CreatePairOrderService].  A pointer or map that is nil is [None]. *)
Record CreatePairOrderService := mkService {
  clientOrderID : option Z;
  lead : option PairLeg;
  orderType : string;
  params : option (gmap string V);
  secondary : option PairLeg;
  style : option string
}.

Record PairOrderLeadFull := {
  LeadOrderType : string;
  LeadParams : option (gmap string V);
  LeadExchange : string;
  LeadSymbol : string;
  LeadLegRatio : option float64
}.

Record PairOrderRequestFull := {
  ReqClientOrderID : option Z;
  ReqLead : PairOrderLeadFull;
  ReqSecondary : option PairLeg;
  ReqStyle : option string
}.

(** The loop [for k, v := range s.lead.Params { leadConfig.Params[k] = v }]. *)
Definition merge (from into : gmap string V) : gmap string V := from ∪ into.

(** The body [Do] builds, and the service afterwards.  [leadConfig.Params]
    starts as the very map [s.params]: when that map is not nil the loop
    writes into it, and the service (and the caller who passed the map
    to [Params]) sees the entries of the lead leg in it; when it is nil
    a fresh map takes them. *)
Definition build_body (s : CreatePairOrderService)
  : PairOrderRequestFull * CreatePairOrderService :=
  let '(leadConfig, params') :=
    match lead s with
    | None =>
        ({| LeadOrderType := orderType s; LeadParams := params s;
            LeadExchange := EmptyString; LeadSymbol := EmptyString;
            LeadLegRatio := None |}, params s)
    | Some ld =>
        let '(lp, params') :=
          match Params ld with
          | None => (params s, params s)
          | Some from =>
              match params s with
              | None => (Some (merge from ∅), None)
              | Some into => (Some (merge from into), Some (merge from into))
              end
          end in
        ({| LeadOrderType := orderType s; LeadParams := lp;
            LeadExchange := Exchange ld; LeadSymbol := Symbol ld;
            LeadLegRatio := LegRatio ld |}, params')
    end in
  ({| ReqClientOrderID := clientOrderID s; ReqLead := leadConfig;
      ReqSecondary := secondary s; ReqStyle := style s |},
   mkService (clientOrderID s) (lead s) (orderType s) params' (secondary s) (style s)).

End Values.

End PairOrder.

(** * Properties *)

(** ** The signer *)

Example sha256_constants :
  length Sha256.primes = 64%nat /\
  nth 0 Sha256.K 0 = 0x428a2f98 /\ nth 63 Sha256.K 0 = 0xc67178f2 /\
  Sha256.h0 Sha256.init = 0x6a09e667 /\ Sha256.h7 Sha256.init = 0x5be0cd19.
Proof. repeat split. Qed.

Example sha256_abc :
  Hex.EncodeToString (Sha256.sum (bytes_of_string "abc"))
  = "ba7816bf8f01cfea414140de5dae2223b00361a396177a9cb410ff61f20015ad"%string.
Proof. vm_compute. reflexivity. Qed.

Example sha256_two_blocks :
  Hex.EncodeToString
    (Sha256.sum (bytes_of_string "abcdbcdecdefdefgefghfghighijhijkijkljklmklmnlmnomnopnopq"))
  = "248d6a61d20638b8e5c026930c3e6039a33ce45964ff2167f6ecedd419db06c1"%string.
Proof. vm_compute. reflexivity. Qed.

Example hmac_fox :
  hmac_sha256_hex "key" "The quick brown fox jumps over the lazy dog"
  = "f7bc83f430538424b13298e6aa6fb143ef4d59a14946175997479dbc2d1a3cd8"%string.
Proof. vm_compute. reflexivity. Qed.

(** RFC 4231, test case 2. *)
Example hmac_rfc4231_2 :
  hmac_sha256_hex "Jefe" "what do ya want for nothing?"
  = "5bdcc146bf60754e6a042426089575c75a003f089d2739839dec58b964ec3843"%string.
Proof. vm_compute. reflexivity. Qed.

Lemma be_bytes_length n x : length (Sha256.be_bytes n x) = n.
Proof.
  unfold Sha256.be_bytes. rewrite length_map, length_rev. apply length_seq.
Qed.

Lemma sha256_sum_length msg : length (Sha256.sum msg) = 32%nat.
Proof.
  unfold Sha256.sum, Sha256.digest_bytes.
  repeat rewrite length_app. repeat rewrite be_bytes_length. reflexivity.
Qed.

Lemma hex_length bs : String.length (Hex.EncodeToString bs) = (2 * length bs)%nat.
Proof.
  induction bs as [|b bs IH]; simpl; [reflexivity|]. rewrite IH. lia.
Qed.

Lemma hmac_sha256_hex_length secret payload :
  String.length (hmac_sha256_hex secret payload) = 64%nat.
Proof.
  unfold hmac_sha256_hex, Hmac.sum. rewrite hex_length, sha256_sum_length. reflexivity.
Qed.

(** C6: [sign] is a function of the secret and the payload bytes alone.
    Two streaming clients holding the same secret, and the REST client
    holding it, return the same signature for the same payload, whatever
    else their state is; the signature is the 64 hex digits of the
    HMAC-SHA256, and [sign] returns nothing but that string. *)
Theorem sign_deterministic (ws1 ws2 : WsClient) (rc : Client) (payload : string) :
  APISecret ws1 = APISecret ws2 ->
  APISecret ws1 = ClientAPISecret rc ->
  sign ws1 payload = sign ws2 payload /\
  sign ws1 payload = Client_sign rc payload /\
  sign ws1 payload
    = Hex.EncodeToString
        (Hmac.sum (bytes_of_string (APISecret ws1)) (bytes_of_string payload)) /\
  String.length (sign ws1 payload) = 64%nat.
Proof.
  intros H12 H1r. unfold sign, Client_sign.
  rewrite <- H12, <- H1r.
  split; [reflexivity|]. split; [reflexivity|]. split; [reflexivity|].
  apply hmac_sha256_hex_length.
Qed.

Lemma sign_deterministic_witness :
  let ws1 := NewWsClient "key-a" "secret" in
  let ws2 := set_isConnected true (NewWsClient "key-b" "secret") in
  let rc := {| ClientAPIKey := "key-c"; ClientAPISecret := "secret" |} in
  sign ws1 "GET/realtime1700000300" = sign ws2 "GET/realtime1700000300" /\
  sign ws1 "GET/realtime1700000300" = Client_sign rc "GET/realtime1700000300" /\
  sign ws1 "GET/realtime1700000300"
    = Hex.EncodeToString
        (Hmac.sum (bytes_of_string (APISecret ws1)) (bytes_of_string "GET/realtime1700000300")) /\
  String.length (sign ws1 "GET/realtime1700000300") = 64%nat.
Proof.
  intros ws1 ws2 rc.
  apply (sign_deterministic ws1 ws2 rc "GET/realtime1700000300"); reflexivity.
Defined.

(** ** The auth frame *)

Lemma digit_value_char d : 0 <= d <= 9 -> digit_value (digit_char d) = Some d.
Proof.
  intros Hd. assert (Hc : d = 0 \/ d = 1 \/ d = 2 \/ d = 3 \/ d = 4 \/
                          d = 5 \/ d = 6 \/ d = 7 \/ d = 8 \/ d = 9) by lia.
  repeat (destruct Hc as [-> | Hc]; [reflexivity|]). subst d. reflexivity.
Qed.

Lemma digit_char_not_minus d : 0 <= d <= 9 -> digit_char d <> "-"%char.
Proof.
  intros Hd. assert (Hc : d = 0 \/ d = 1 \/ d = 2 \/ d = 3 \/ d = 4 \/
                          d = 5 \/ d = 6 \/ d = 7 \/ d = 8 \/ d = 9) by lia.
  repeat (destruct Hc as [-> | Hc]; [discriminate|]). subst d. discriminate.
Qed.

Lemma string_app_cons x (a b : string) : (String x a ++ b = String x (a ++ b))%string.
Proof. reflexivity. Qed.

Lemma string_app_nil (b : string) : ("" ++ b = b)%string.
Proof. reflexivity. Qed.

Lemma string_app_assoc (a b c : string) : ((a ++ b) ++ c = a ++ (b ++ c))%string.
Proof.
  induction a as [|x a IH]; [reflexivity|].
  rewrite !string_app_cons, IH. reflexivity.
Qed.

Lemma string_app_length (a b : string) :
  String.length (a ++ b)%string = (String.length a + String.length b)%nat.
Proof.
  induction a as [|x a IH]; [reflexivity|].
  rewrite string_app_cons. simpl. now rewrite IH.
Qed.

Lemma string_app_empty (a : string) : (a ++ "")%string = a.
Proof.
  induction a as [|x a IH]; [reflexivity|].
  rewrite string_app_cons, IH. reflexivity.
Qed.

Lemma numeral_digit n : 0 <= n <= 9 -> numeral (String (digit_char n) EmptyString) n.
Proof.
  intros Hn. split.
  - exists n, EmptyString. split; [lia | reflexivity].
  - intros tail acc0. rewrite string_app_cons, string_app_nil.
    cbn [parse_digits]. rewrite digit_value_char by lia. f_equal.
    change (Z.of_nat (String.length (String (digit_char n) ""))) with 1. lia.
Qed.

Lemma numeral_snoc ds q r :
  numeral ds q -> 0 <= r <= 9 ->
  numeral (ds ++ String (digit_char r) EmptyString)%string (10 * q + r).
Proof.
  intros [(d & rest & Hd & Hfirst) Hparse] Hr. split.
  - exists d, (rest ++ String (digit_char r) EmptyString)%string.
    split; [exact Hd|]. rewrite Hfirst. reflexivity.
  - intros tail acc0. rewrite string_app_assoc, Hparse.
    rewrite string_app_cons, string_app_nil. cbn [parse_digits].
    rewrite digit_value_char by exact Hr. f_equal.
    rewrite string_app_length.
    change (String.length (String (digit_char r) "")) with 1%nat.
    replace (Z.of_nat (String.length ds + 1)) with (Z.of_nat (String.length ds) + 1) by lia.
    rewrite Z.pow_add_r by lia. lia.
Qed.

Lemma format_digits_S k n acc :
  format_digits (S k) n acc
  = if n <? 10 then String (digit_char (n mod 10)) acc
    else format_digits k (n / 10) (String (digit_char (n mod 10)) acc).
Proof. reflexivity. Qed.

Lemma format_digits_numeral fuel :
  forall n acc, 0 <= n < 2 ^ Z.of_nat (S fuel) ->
    exists ds, format_digits (S fuel) n acc = (ds ++ acc)%string /\ numeral ds n.
Proof.
  induction fuel as [|k IH]; intros n acc Hn.
  - exists (String (digit_char (n mod 10)) EmptyString).
    change (2 ^ Z.of_nat 1) with 2 in Hn.
    assert (Hs : (n <? 10) = true) by (apply Z.ltb_lt; lia).
    rewrite format_digits_S, Hs. split; [reflexivity|].
    rewrite Z.mod_small by lia. apply numeral_digit. lia.
  - rewrite format_digits_S. destruct (n <? 10) eqn:Hs.
    + apply Z.ltb_lt in Hs.
      exists (String (digit_char (n mod 10)) EmptyString). split; [reflexivity|].
      rewrite Z.mod_small by lia. apply numeral_digit. lia.
    + apply Z.ltb_ge in Hs.
      assert (Hq : 0 <= (n / 10) < 2 ^ Z.of_nat (S k)).
      { split; [apply Z.div_pos; lia|].
        apply Z.div_lt_upper_bound; [lia|].
        replace (Z.of_nat (S (S k))) with (Z.of_nat (S k) + 1) in Hn by lia.
        rewrite Z.pow_add_r in Hn by lia. lia. }
      destruct (IH (n / 10) (String (digit_char (n mod 10)) acc) Hq) as (ds & Hds & Hnum).
      exists (ds ++ String (digit_char (n mod 10)) EmptyString)%string. split.
      * rewrite Hds, string_app_assoc. reflexivity.
      * assert (Hm : 0 <= n mod 10 <= 9) by (pose proof (Z.mod_pos_bound n 10); lia).
        replace n with (10 * (n / 10) + n mod 10) at 2
          by (pose proof (Z.div_mod n 10); lia).
        apply numeral_snoc; assumption.
Qed.

Lemma log2_fuel n : 0 <= n -> 0 <= n < 2 ^ Z.of_nat (S (Z.to_nat (Z.log2 n))).
Proof.
  intros Hn. split; [exact Hn|].
  replace (Z.of_nat (S (Z.to_nat (Z.log2 n)))) with (Z.succ (Z.log2 n))
    by (pose proof (Z.log2_nonneg n); lia).
  destruct (Z.eq_dec n 0) as [-> | Hnz]; [reflexivity|].
  apply Z.log2_spec. lia.
Qed.

Lemma numeral_parse ds n : numeral ds n -> parse_digits ds 0 = Some n.
Proof.
  intros [_ Hparse]. rewrite <- (string_app_empty ds), Hparse. reflexivity.
Qed.

Lemma numeral_ParseInt ds n : numeral ds n -> ParseInt ds = Some n.
Proof.
  intros Hnum. pose proof (numeral_parse ds n Hnum) as Hp.
  destruct Hnum as [(d & rest & Hd & Hfirst) _].
  unfold ParseInt. rewrite Hfirst in *.
  pose proof (digit_char_not_minus d Hd) as Hnm.
  destruct (digit_char d) as [b0 b1 b2 b3 b4 b5 b6 b7].
  destruct b0, b1, b2, b3, b4, b5, b6, b7; try exact Hp; congruence.
Qed.

(** The decimal numeral [%d] prints reads back as the number. *)
Lemma ParseInt_FormatInt n : ParseInt (FormatInt n) = Some n.
Proof.
  unfold FormatInt. destruct (n <? 0) eqn:Hneg.
  - apply Z.ltb_lt in Hneg.
    destruct (format_digits_numeral (Z.to_nat (Z.log2 (- n))) (- n) EmptyString)
      as (ds & Hds & Hnum); [apply log2_fuel; lia|].
    rewrite Hds, string_app_empty.
    pose proof (numeral_parse ds (- n) Hnum) as Hp.
    destruct Hnum as [(d & rest & Hd & Hfirst) _].
    unfold ParseInt. rewrite Hfirst in *. rewrite Hp. simpl. f_equal. lia.
  - apply Z.ltb_ge in Hneg.
    destruct (format_digits_numeral (Z.to_nat (Z.log2 n)) n EmptyString)
      as (ds & Hds & Hnum); [apply log2_fuel; lia|].
    rewrite Hds, string_app_empty. apply numeral_ParseInt. exact Hnum.
Qed.

Lemma auth_expires_spec (now : Time) :
  0 <= nsec now < Second -> auth_expires now = unix_sec now + 300.
Proof.
  intros [Hlo Hhi]. unfold auth_expires, Time_Unix, Time_Add.
  change (Z.quot (5 * Minute) Second) with 300.
  change (Z.rem (5 * Minute) Second) with 0.
  rewrite Z.add_0_r.
  destruct (Second <=? nsec now) eqn:H1; [apply Z.leb_le in H1; lia|].
  destruct (nsec now <? 0) eqn:H2; [apply Z.ltb_lt in H2; lia|].
  reflexivity.
Qed.

Example auth_payload_known :
  auth_payload 1700000300 = "GET/realtime1700000300"%string.
Proof. vm_compute. reflexivity. Qed.

Example FormatInt_negative : FormatInt (-42) = "-42"%string.
Proof. vm_compute. reflexivity. Qed.

(** C5: for every clock reading, the frame the authentication step
    writes has ["op"] = ["auth"] and ["args"] = the key, the decimal
    numeral of [expires] and the hex HMAC-SHA256 of the payload, where
    [expires] is the Unix time of the reading plus 300 and the payload
    is the twelve bytes [GET/realtime] followed at once by that numeral. *)
Theorem authenticate_frame (w : World) (tid : nat) (by_ : Caller) (now : Time)
    (werr : error) (k : nat) :
  0 <= nsec now < Second ->
  isConnected (client w) = true ->
  conn (client w) = Some k ->
  let c := client w in
  let expires := Time_Unix now + 300 in
  let payload := ("GET/realtime" ++ FormatInt expires)%string in
  let frame := authMsg c now in
  (exists w', thread_step tid (authenticate_send by_) (Now now werr) w = Some w' /\
              trace w' = trace w ++ [(c, EvWriteJSON k frame)]) /\
  frame !! "op"%string = Some (JString "auth") /\
  frame !! "args"%string
    = Some (JArray [APIKey c; FormatInt expires;
                    Hex.EncodeToString
                      (Hmac.sum (bytes_of_string (APISecret c)) (bytes_of_string payload))]) /\
  (forall key, frame !! key <> None -> key = "op"%string \/ key = "args"%string) /\
  ParseInt (FormatInt expires) = Some expires /\
  String.length payload = (12 + String.length (FormatInt expires))%nat.
Proof.
  intros Hns Hconn Hk c expires payload frame.
  assert (Hexp : auth_expires now = expires) by (apply auth_expires_spec; exact Hns).
  split; [|split; [|split; [|split; [|split]]]].
  - unfold thread_step, SendJSON. cbv zeta. rewrite Hconn, Hk.
    destruct werr as [e|]; eexists; (split; [reflexivity|]); reflexivity.
  - reflexivity.
  - unfold frame, authMsg. rewrite Hexp. reflexivity.
  - intros key Hkey. unfold frame, authMsg in Hkey.
    destruct (decide (key = "args"%string)) as [->|Hna]; [now right|].
    destruct (decide (key = "op"%string)) as [->|Hno]; [now left|].
    rewrite lookup_insert_ne, lookup_insert_ne, lookup_empty in Hkey by congruence.
    congruence.
  - apply ParseInt_FormatInt.
  - unfold payload. rewrite string_app_length. reflexivity.
Qed.

Lemma authenticate_frame_witness :
  let w := with_client (set_isConnected true (set_conn (Some 0%nat) (client fresh))) fresh in
  let c := client w in
  let expires := Time_Unix clock + 300 in
  let payload := ("GET/realtime" ++ FormatInt expires)%string in
  let frame := authMsg c clock in
  (exists w', thread_step 0 (authenticate_send ByUser) (Now clock None) w = Some w' /\
              trace w' = trace w ++ [(c, EvWriteJSON 0 frame)]) /\
  frame !! "op"%string = Some (JString "auth") /\
  frame !! "args"%string
    = Some (JArray [APIKey c; FormatInt expires;
                    Hex.EncodeToString
                      (Hmac.sum (bytes_of_string (APISecret c)) (bytes_of_string payload))]) /\
  (forall key, frame !! key <> None -> key = "op"%string \/ key = "args"%string) /\
  ParseInt (FormatInt expires) = Some expires /\
  String.length payload = (12 + String.length (FormatInt expires))%nat.
Proof.
  exact (authenticate_frame
           (with_client (set_isConnected true (set_conn (Some 0%nat) (client fresh))) fresh)
           0%nat ByUser clock None 0%nat
           ltac:(vm_compute; split; [discriminate | reflexivity])
           eq_refl eq_refl).
Defined.

(** The frame for the reading 1700000000.123456789, byte for byte. *)
Example authMsg_known :
  authMsg (NewWsClient "key" "secret") clock
  = <["args" := JArray ["key"; "1700000300";
                        hmac_sha256_hex "secret" "GET/realtime1700000300"]%string]>
      (<["op" := JString "auth"]> ∅).
Proof. reflexivity. Qed.

(** ** Goroutines of the machine *)

Lemma lookup_spawned (ts : list Pc) (pc : Pc) : (ts ++ [pc]) !! length ts = Some pc.
Proof. induction ts as [|t ts IH]; [reflexivity | exact IH]. Qed.

Lemma insert_spawned (ts : list Pc) (pc pc' : Pc) :
  <[length ts := pc']> (ts ++ [pc]) = ts ++ [pc'].
Proof. induction ts as [|t ts IH]; [reflexivity | simpl; now rewrite IH]. Qed.

Lemma step_running (w : World) (a : Action) :
  panicked w = None ->
  step a w = match a with
             | Call op => call_step op w
             | Run tid e =>
                 match threads w !! tid with
                 | Some pc => thread_step tid pc e w
                 | None => None
                 end
             end.
Proof. intros H. unfold step. now rewrite H. Qed.

(** Running the machine symbolically: unfold the world updates, and
    resolve the lookups and updates of the goroutine spawned last. *)
Ltac machine :=
  repeat first
    [ progress unfold goto, spawn, emit, record, call_errHandler,
               with_client, with_threads, with_chans, with_sockets, with_panic, with_keepalive
    | progress cbn [run step call_step thread_step stamp map
                    client threads chans sockets trace panicked WebsocketKeepalive negb]
    | rewrite lookup_spawned
    | rewrite insert_spawned ].

(** The case analysis of a step: the point the goroutine stands at, what
    the outside contributes, and the branches of the step itself. *)
Ltac step_split :=
  try unfold dispatch_wildcard; try unfold SendPing; try unfold SendJSON;
  try unfold Unsubscribe; try unfold SetErrorHandler;
  repeat case_match; try discriminate;
  let H := fresh "Hstep" in
  intros H; inversion H; subst; clear H;
  try unfold call_errHandler; repeat case_match; simplify_eq;
  unfold goto, spawn, emit, record, with_client, with_threads, with_chans,
    with_sockets, with_panic, with_keepalive;
  cbn [client threads chans sockets trace panicked WebsocketKeepalive].

Ltac with_Disconnect lem :=
  try match goal with
      | |- context [Disconnect ?c ?ce] =>
          let Hd := fresh "Hd" in
          destruct (Disconnect c ce) as [[? ?] ?] eqn:Hd;
          pose proof (lem _ _ _ _ _ Hd)
      end.

(** The fields of the client, computed through its setters. *)
Ltac fields :=
  cbn [APIKey APISecret BaseURL LocalAddr conn isConnected isAuthenticated handlers
       errHandler done reconnect reconnectDelay
       set_conn set_isConnected set_isAuthenticated set_handlers set_errHandler
       set_done set_reconnect].

(** ** Subscribe *)

(** C4: when authentication has not completed, [Subscribe] returns the
    error "not authenticated", leaves the client (its registry included)
    as it was and writes nothing; the same holds of the goroutine that
    runs it in the machine, whose only event is its return. *)
Theorem Subscribe_before_authenticated (c : WsClient) (topic : string)
    (handler : WsHandler) (werr : error) (w : World) :
  IsAuthenticated c = false ->
  client w = c ->
  panicked w = None ->
  Subscribe c topic handler werr = (c, Some "not authenticated"%string, []) /\
  run [Call (CallSubscribe topic handler); Run (length (threads w)) Tau] w
  = Some (emit [EvReturn "Subscribe" (Some "not authenticated"%string)]
            (with_threads (threads w ++ [Exited]) w)).
Proof.
  intros Hauth Hc Hp. unfold IsAuthenticated in Hauth. split.
  - unfold Subscribe. now rewrite Hauth.
  - destruct w as [c' ts cs n tr0 p ka]. cbn [panicked client threads] in *. subst c' p.
    machine. rewrite Hauth. machine. reflexivity.
Qed.

Lemma Subscribe_before_authenticated_witness :
  let c := client fresh in
  Subscribe c "execution_report" (UserHandler 7) None
  = (c, Some "not authenticated"%string, []) /\
  run [Call (CallSubscribe "execution_report" (UserHandler 7));
       Run (length (threads fresh)) Tau] fresh
  = Some (emit [EvReturn "Subscribe" (Some "not authenticated"%string)]
            (with_threads (threads fresh ++ [Exited]) fresh)).
Proof.
  intros c.
  exact (Subscribe_before_authenticated c "execution_report" (UserHandler 7) None fresh
           eq_refl eq_refl eq_refl).
Defined.

(** [Subscribe] when nothing runs between its critical sections: the
    client it returns has the handler under the topic, and every event
    of the call is stamped with a client whose registry yields the
    handler.  When the socket is there the frame is written. *)
Lemma Subscribe_sequential (c : WsClient) (topic : string)
    (handler : WsHandler) (werr : error) :
  IsAuthenticated c = true ->
  exists c1 r tr,
    Subscribe c topic handler werr = (c1, r, tr) /\
    handlers c1 !! topic = Some handler /\
    (forall s ev, In (s, ev) tr -> handlers s !! topic = Some handler) /\
    (forall k, IsConnected c = true -> conn c = Some k ->
       r = werr /\ tr = [(c1, EvWriteJSON k (subscribeMsg topic))]).
Proof.
  unfold IsAuthenticated, IsConnected. intros Hauth.
  unfold Subscribe. rewrite Hauth. cbn [negb].
  set (c1 := set_handlers (<[topic:=handler]> (handlers c)) c).
  assert (Hreg : handlers c1 !! topic = Some handler) by apply lookup_insert_eq.
  unfold SendJSON.
  change (isConnected c1) with (isConnected c). change (conn c1) with (conn c).
  destruct (isConnected c) eqn:Hconn; [destruct (conn c) as [k|] eqn:Hk|].
  - exists c1, werr, (stamp c1 [EvWriteJSON k (subscribeMsg topic)]).
    split; [reflexivity|]. split; [exact Hreg|]. split.
    + intros s ev [Heq|[]]. now inversion Heq; subst.
    + intros k' _ Hk'. inversion Hk'; subst. split; reflexivity.
  - exists c1, (Some "not connected"%string), []. split; [reflexivity|].
    split; [exact Hreg|]. split; [intros s ev []|]. intros k' _ Hk'. discriminate.
  - exists c1, (Some "not connected"%string), []. split; [reflexivity|].
    split; [exact Hreg|]. split; [intros s ev []|]. intros k' Hc' _. discriminate.
Qed.

(** The goroutine of the machine that runs [Subscribe], when nothing
    else runs in between, does what the function [Subscribe] does. *)
Lemma Subscribe_goroutine_alone (w : World) (topic : string) (h : WsHandler) (werr : error) :
  panicked w = None ->
  IsAuthenticated (client w) = true ->
  let tid := length (threads w) in
  let '(c1, r, tr) := Subscribe (client w) topic h werr in
  run [Call (CallSubscribe topic h); Run tid Tau; Run tid Tau; Run tid (WriteRes werr)] w
  = Some (emit [EvReturn "Subscribe" r]
            (record tr (with_client c1 (with_threads (threads w ++ [Exited]) w)))).
Proof.
  intros Hp Hauth tid. destruct w as [c ts cs n tr0 p ka].
  unfold IsAuthenticated in Hauth. cbn [panicked client threads] in *. subst p tid.
  unfold Subscribe. rewrite Hauth. cbn [negb].
  destruct (SendJSON _ _ werr) as [r tr] eqn:Hsend.
  machine. rewrite Hauth. machine. rewrite Hsend. machine. reflexivity.
Qed.

(** ** Subscribe among the other goroutines *)

Lemma eqb_neq_string (a b : string) : String.eqb a b = false -> a <> b.
Proof. intros H Heq. subst. rewrite String.eqb_refl in H. discriminate. Qed.

Lemma run_app (a b : list Action) (w : World) :
  run (a ++ b) w = match run a w with Some w' => run b w' | None => None end.
Proof.
  revert w. induction a as [|x a IH]; intros w; cbn [run app]; [reflexivity|].
  destruct (step x w); [apply IH | reflexivity].
Qed.

Lemma Disconnect_handlers (c c' : WsClient) (e : error) (o : Outcome) (tr : Trace) :
  Disconnect c e = (c', o, tr) -> handlers c' = handlers c.
Proof.
  unfold Disconnect. destruct (isConnected c); cbn [negb].
  - destruct (done (set_reconnect false c)).
    + destruct (conn (set_done Closed (set_reconnect false c))); [destruct e|];
        intros H; inversion H; subst; reflexivity.
    + intros H; inversion H; subst. reflexivity.
  - intros H; inversion H; subst. reflexivity.
Qed.

Lemma step_Some_running (a : Action) (w w' : World) :
  step a w = Some w' -> panicked w = None.
Proof. unfold step. destruct (panicked w); [discriminate | reflexivity]. Qed.

(** A step of another goroutine, or a call, leaves a goroutine where it stands. *)
Lemma step_other_thread (a : Action) (w w' : World) (tid : nat) (pc : Pc) :
  step a w = Some w' ->
  by_thread tid a = false ->
  threads w !! tid = Some pc ->
  threads w' !! tid = Some pc.
Proof.
  unfold step. destruct (panicked w); [discriminate|].
  destruct a as [op | t e]; cbn [by_thread].
  - intros Hs _ Hpc. revert Hs.
    destruct op as [|ce|topic h|topic|h|werr|b]; cbn [call_step];
      with_Disconnect Disconnect_handlers; step_split;
      first [exact Hpc | apply lookup_app_l_Some; exact Hpc].
  - intros Hs Hne Hpc. apply Nat.eqb_neq in Hne. revert Hs.
    destruct (threads w !! t) as [pc0|] eqn:Hpc0; [|discriminate].
    destruct pc0; destruct e; cbn [thread_step]; try discriminate;
      with_Disconnect Disconnect_handlers; step_split;
      first [ exact Hpc
            | rewrite list_lookup_insert_ne by congruence; exact Hpc
            | apply lookup_app_l_Some; rewrite list_lookup_insert_ne by congruence;
              exact Hpc ].
Qed.

Lemma run_other_threads (acts : list Action) (w w' : World) (tid : nat) (pc : Pc) :
  run acts w = Some w' ->
  forallb (fun a => negb (by_thread tid a)) acts = true ->
  threads w !! tid = Some pc ->
  threads w' !! tid = Some pc.
Proof.
  revert w. induction acts as [|a acts IH]; intros w; cbn [run forallb].
  - intros H _ Hpc. inversion H; subst. exact Hpc.
  - destruct (step a w) as [w1|] eqn:Hs; [|discriminate].
    intros Hr Hall Hpc. apply andb_prop in Hall as [Ha Hall].
    apply negb_true_iff in Ha.
    exact (IH w1 Hr Hall (step_other_thread a w w1 tid pc Hs Ha Hpc)).
Qed.

(** Apart from the steps [writes_entry] names, no step changes what the
    registry holds under [topic]. *)
Lemma step_entry (topic : string) (a : Action) (w w' : World) :
  step a w = Some w' ->
  writes_entry topic w a = false ->
  handlers (client w') !! topic = handlers (client w) !! topic.
Proof.
  unfold step. destruct (panicked w); [discriminate|].
  destruct a as [op | t e]; cbn [writes_entry].
  - destruct op as [|ce|tp h|tp|h|werr|b]; cbn [call_step];
      with_Disconnect Disconnect_handlers; step_split; intros Hw;
      try reflexivity; try congruence.
    apply eqb_neq_string in Hw. cbn [handlers set_handlers].
    apply lookup_delete_ne. exact Hw.
  - destruct (threads w !! t) as [pc0|] eqn:Hpc0; [|discriminate].
    destruct pc0; destruct e; cbn [thread_step]; try discriminate;
      with_Disconnect Disconnect_handlers; step_split; intros Hw;
      try reflexivity; try congruence;
      apply eqb_neq_string in Hw; cbn [handlers set_handlers];
      first [ apply lookup_insert_ne; exact Hw | apply lookup_delete_ne; exact Hw ].
Qed.

Lemma run_entry (topic : string) (acts : list Action) (w w' : World) :
  run acts w = Some w' ->
  entry_untouched topic acts w = true ->
  handlers (client w') !! topic = handlers (client w) !! topic.
Proof.
  revert w. induction acts as [|a acts IH]; intros w; cbn [run entry_untouched].
  - intros H _. inversion H; subst. reflexivity.
  - destruct (step a w) as [w1|] eqn:Hs; [|discriminate].
    intros Hr Hall. apply andb_prop in Hall as [Ha Hall].
    apply negb_true_iff in Ha.
    rewrite (IH w1 Hr Hall). exact (step_entry topic a w w1 Hs Ha).
Qed.

(** C7, as the code has it: a [Subscribe] call that passes its check in
    the authenticated state stores the handler in one critical section
    and writes the frame in a later one, whatever other goroutines and
    calls run before, between and after.  After the store the registry
    yields the handler.  The lock is released between the store and the
    send: when nothing that runs in between writes the entry of the
    topic, the registry still yields the handler at the moment the
    frame [{"op": "subscribe", "args": [topic]}] is written, and the
    write is stamped with that registry. *)
Theorem Subscribe_store_precedes_send (w w1 w3 : World) (tid : nat) (topic : string)
    (h : WsHandler) (pre mid : list Action) (werr : error) :
  threads w !! tid = Some (Subscribe_entry topic h) ->
  IsAuthenticated (client w) = true ->
  forallb (fun a => negb (by_thread tid a)) pre = true ->
  forallb (fun a => negb (by_thread tid a)) mid = true ->
  run (Run tid Tau :: pre ++ [Run tid Tau]) w = Some w1 ->
  entry_untouched topic mid w1 = true ->
  run (mid ++ [Run tid (WriteRes werr)]) w1 = Some w3 ->
  handlers (client w1) !! topic = Some h /\
  exists w2 frame,
    run mid w1 = Some w2 /\
    handlers (client w2) !! topic = Some h /\
    frame !! "op"%string = Some (JString "subscribe") /\
    frame !! "args"%string = Some (JArray [topic]) /\
    (forall key, frame !! key <> None -> key = "op"%string \/ key = "args"%string) /\
    trace w3 = trace w2 ++ stamp (client w2) (Subscribe_send_events (client w2) frame werr).
Proof.
  intros Hpc Hauth Hpre Hmid Hrun1 Hquiet Hrun3.
  unfold IsAuthenticated in Hauth.
  (* the check *)
  cbn [run] in Hrun1.
  destruct (step (Run tid Tau) w) as [w0|] eqn:Hcheck; [|discriminate].
  pose proof (step_Some_running _ _ _ Hcheck) as Hp.
  rewrite (step_running _ _ Hp), Hpc in Hcheck. cbn [thread_step] in Hcheck.
  rewrite Hauth in Hcheck. cbn [negb] in Hcheck. inversion Hcheck; subst w0; clear Hcheck.
  (* the others, then the store *)
  rewrite run_app in Hrun1.
  destruct (run pre (goto tid (Subscribe_store topic h) w)) as [wb|] eqn:Hrunb; [|discriminate].
  assert (Hpcb : threads wb !! tid = Some (Subscribe_store topic h)).
  { apply (run_other_threads pre _ wb tid _ Hrunb Hpre).
    unfold goto, with_threads. cbn [threads].
    apply list_lookup_insert_eq. apply lookup_lt_Some in Hpc. exact Hpc. }
  cbn [run] in Hrun1.
  destruct (step (Run tid Tau) wb) as [w1'|] eqn:Hstore; [|discriminate].
  inversion Hrun1; subst w1'; clear Hrun1.
  pose proof (step_Some_running _ _ _ Hstore) as Hpb.
  rewrite (step_running _ _ Hpb), Hpcb in Hstore. cbn [thread_step] in Hstore.
  inversion Hstore; subst w1; clear Hstore.
  assert (Hreg : handlers (client (goto tid (Subscribe_send topic)
                   (with_client (set_handlers (<[topic:=h]> (handlers (client wb))) (client wb)) wb)))
                 !! topic = Some h) by apply lookup_insert_eq.
  split; [exact Hreg|].
  (* the others, then the send *)
  rewrite run_app in Hrun3.
  match type of Hrun3 with
  | match run mid ?w1 with _ => _ end = _ =>
      destruct (run mid w1) as [w2|] eqn:Hrun2; [|discriminate];
      assert (Hpc2 : threads w2 !! tid = Some (Subscribe_send topic))
        by (apply (run_other_threads mid w1 w2 tid _ Hrun2 Hmid);
            unfold goto, with_threads, with_client; cbn [threads];
            apply list_lookup_insert_eq; apply lookup_lt_Some in Hpcb; exact Hpcb);
      pose proof (run_entry topic mid w1 w2 Hrun2 Hquiet) as Hkept
  end.
  rewrite Hreg in Hkept.
  cbn [run] in Hrun3.
  destruct (step (Run tid (WriteRes werr)) w2) as [w3'|] eqn:Hsend; [|discriminate].
  inversion Hrun3; subst w3'; clear Hrun3.
  pose proof (step_Some_running _ _ _ Hsend) as Hp2.
  rewrite (step_running _ _ Hp2), Hpc2 in Hsend. cbn [thread_step] in Hsend.
  exists w2, (subscribeMsg topic).
  split; [reflexivity|]. split; [exact Hkept|].
  split; [reflexivity|]. split; [reflexivity|]. split.
  - intros key Hkey. unfold subscribeMsg in Hkey.
    destruct (decide (key = "args"%string)) as [->|Hna]; [now right|].
    destruct (decide (key = "op"%string)) as [->|Hno]; [now left|].
    rewrite lookup_insert_ne, lookup_insert_ne, lookup_empty in Hkey by congruence.
    congruence.
  - unfold SendJSON, Subscribe_send_events in *.
    destruct (isConnected (client w2)); [destruct (conn (client w2))|];
      inversion Hsend; subst w3; unfold goto, emit, record, with_threads;
      cbn [trace client stamp map]; rewrite <- ?app_assoc; reflexivity.
Qed.

Lemma Subscribe_store_precedes_send_witness :
  let w := outcome Subscribe_called in
  let pre := [Run 2 Tick]%nat in
  let mid := [Call (CallUnsubscribe "execution_report"); Run 2 Tau;
              Call (CallSubscribe "*" (UserHandler 2)); Run 4 Tau]%nat in
  let w1 := outcome (Subscribe_called ++ Run 3%nat Tau :: pre ++ [Run 3%nat Tau]) in
  let w3 := outcome (Subscribe_called ++ Run 3%nat Tau :: pre ++ [Run 3%nat Tau]
                     ++ mid ++ [Run 3%nat (WriteRes None)]) in
  handlers (client w1) !! "analytics"%string = Some (UserHandler 1) /\
  exists w2 frame,
    run mid w1 = Some w2 /\
    handlers (client w2) !! "analytics"%string = Some (UserHandler 1) /\
    frame !! "op"%string = Some (JString "subscribe") /\
    frame !! "args"%string = Some (JArray ["analytics"%string]) /\
    (forall key, frame !! key <> None -> key = "op"%string \/ key = "args"%string) /\
    trace w3 = trace w2 ++ stamp (client w2) (Subscribe_send_events (client w2) frame None).
Proof.
  intros w pre mid w1 w3.
  apply (Subscribe_store_precedes_send w w1 w3 3%nat "analytics" (UserHandler 1) pre mid None);
    vm_compute; reflexivity.
Defined.

(** C7, as stated, fails: [Unsubscribe] of the topic runs between the
    store and the send of a [Subscribe] in the authenticated state.  The
    handler was stored, the subscribe frame is written and [Subscribe]
    returns nil, and at the moment of the write the registry yields no
    handler for the topic. *)
Lemma Subscribe_sent_without_handler :
  let stored := outcome (Subscribe_called ++ [Run 3 Tau; Run 3 Tau]%nat) in
  let w := outcome unsubscribe_in_the_gap in
  let n := length (trace w) in
  IsAuthenticated (client (outcome Subscribe_called)) = true /\
  handlers (client stored) !! "analytics"%string = Some (UserHandler 1) /\
  run unsubscribe_in_the_gap fresh = Some w /\
  exists s,
    trace w !! (n - 2)%nat = Some (s, EvWriteJSON 0%nat (subscribeMsg "analytics")) /\
    trace w !! (n - 1)%nat = Some (s, EvReturn "Subscribe" None) /\
    handlers s !! "analytics"%string = None /\
    lookup_handler s "analytics" = None.
Proof.
  intros stored w n.
  split; [vm_compute; reflexivity|]. split; [vm_compute; reflexivity|].
  split; [vm_compute; reflexivity|].
  eexists. split; [vm_compute; reflexivity|].
  split; [vm_compute; reflexivity|]. split; vm_compute; reflexivity.
Qed.

(** ** Disconnect *)

Lemma Disconnect_noop (c : WsClient) (close_err : error) :
  isConnected c = false -> Disconnect c close_err = (c, Returned None, []).
Proof. intros Hconn. unfold Disconnect. now rewrite Hconn. Qed.

(** On a client that is not connected [Disconnect] returns nil, does not
    touch [done], writes nothing and leaves the client as it was. *)
Lemma Disconnect_not_connected (c : WsClient) (close_err : error) :
  IsConnected c = false ->
  Disconnect c close_err = (c, Returned None, []) /\
  (forall w, client w = c -> panicked w = None ->
     step (Call (CallDisconnect close_err)) w
     = Some (emit [EvReturn "Disconnect" None] w)).
Proof.
  unfold IsConnected. intros Hconn.
  pose proof (Disconnect_noop c close_err Hconn) as Hd.
  split; [exact Hd|].
  intros w Hc Hp. destruct w as [c' ts cs n tr0 p ka].
  cbn [panicked client] in *. subst c' p.
  machine. rewrite Hd. machine. rewrite app_nil_r. reflexivity.
Qed.

(** A call that returned nil left the client disconnected, so the call
    after it is the no-op above. *)
Lemma Disconnect_returned_nil (c c1 : WsClient) (e : error) (tr : Trace) :
  Disconnect c e = (c1, Returned None, tr) -> IsConnected c1 = false.
Proof.
  unfold Disconnect, IsConnected.
  destruct (isConnected c) eqn:Hconn; cbn [negb].
  - destruct (done (set_reconnect false c)); [|discriminate].
    destruct (conn (set_done Closed (set_reconnect false c))); [destruct e|];
      intros H; inversion H; subst; reflexivity.
  - intros H; inversion H; subst. exact Hconn.
Qed.

Lemma Disconnect_twice (c c1 : WsClient) (e1 e2 : error) (tr : Trace) :
  Disconnect c e1 = (c1, Returned None, tr) ->
  Disconnect c1 e2 = (c1, Returned None, []).
Proof.
  intros H. apply Disconnect_noop.
  exact (Disconnect_returned_nil c c1 e1 tr H).
Qed.

(** [Disconnect] on a connected client whose socket fails to close: the
    error is returned from the middle of the body, after [done] has
    been closed and before the flags are cleared, and the next call
    closes [done] again. *)
Lemma Disconnect_close_error (c : WsClient) (k : nat) (e : string) (e' : error) :
  isConnected c = true -> done c = Open -> conn c = Some k ->
  let c1 := set_done Closed (set_reconnect false c) in
  Disconnect c (Some e)
  = (c1, Returned (Some ("failed to close connection: " ++ e)%string),
     stamp c1 [EvWriteClose k; EvClose k]) /\
  isConnected c1 = true /\
  Disconnect c1 e' = (c1, Panicked "close of closed channel", []).
Proof.
  intros Hconn Hdone Hk c1. subst c1. split; [|split].
  - unfold Disconnect. fields. rewrite Hconn, Hdone, Hk. reflexivity.
  - exact Hconn.
  - unfold Disconnect. fields. rewrite Hconn. reflexivity.
Qed.

(** C8, on the code: a session is up, the caller calls [Disconnect] and
    the socket fails to close.  The call returns the error with [done]
    closed and [isConnected] still set, so the guard of the second call
    does not hold it back: it closes [done] again and the program
    panics. *)
Theorem second_Disconnect_panics :
  let w1 := outcome close_failed in
  let w2 := outcome close_failed_then_again in
  run close_failed fresh = Some w1 /\
  last (events (trace w1))
  = Some (EvReturn "Disconnect"
            (Some "failed to close connection: use of closed network connection"%string)) /\
  panicked w1 = None /\
  IsConnected (client w1) = true /\
  done (client w1) = Closed /\
  run close_failed_then_again fresh = Some w2 /\
  panicked w2 = Some "close of closed channel"%string.
Proof.
  intros w1 w2.
  do 6 (split; [vm_compute; reflexivity|]). vm_compute; reflexivity.
Qed.

(** ** Connect *)

(** C9: [Connect] on a connected client returns the error "already
    connected"; however far its goroutine is run, the client (connection
    flag, socket and authentication flag included) stays as it was and
    no dial is made. *)
Theorem Connect_already_connected (w : World) :
  IsConnected (client w) = true ->
  panicked w = None ->
  let tid := length (threads w) in
  run [Call CallConnect; Run tid Tau; Run tid Tau] w
  = Some (emit [EvReturn "Connect" (Some "already connected"%string)]
            (with_threads (threads w ++ [Exited]) w)) /\
  (forall envs w',
     run (Call CallConnect :: map (Run tid) envs) w = Some w' ->
     client w' = client w /\ dials (trace w') = dials (trace w)).
Proof.
  intros Hconn Hp tid. destruct w as [c ts cs n tr0 p ka].
  unfold IsConnected in Hconn. cbn [panicked client threads trace] in *. subst p tid.
  split.
  - machine. rewrite Hconn. machine. reflexivity.
  - intros envs w'. machine.
    destruct envs as [|e1 envs]; cbn [map run].
    { intros Hrun; inversion Hrun; subst. split; reflexivity. }
    machine. destruct e1; try discriminate. rewrite Hconn. machine.
    destruct envs as [|e2 envs]; cbn [map run].
    { intros Hrun; inversion Hrun; subst. split; reflexivity. }
    machine. destruct e2; try discriminate. machine.
    destruct envs as [|e3 envs]; cbn [map run].
    { intros Hrun; inversion Hrun; subst. split; [reflexivity|].
      unfold dials. cbn [trace]. rewrite List.filter_app, length_app. cbn. lia. }
    machine. destruct e3; discriminate.
Qed.

Lemma Connect_already_connected_witness :
  let w := outcome session_up in
  let tid := length (threads w) in
  run [Call CallConnect; Run tid Tau; Run tid Tau] w
  = Some (emit [EvReturn "Connect" (Some "already connected"%string)]
            (with_threads (threads w ++ [Exited]) w)) /\
  (forall envs w',
     run (Call CallConnect :: map (Run tid) envs) w = Some w' ->
     client w' = client w /\ dials (trace w') = dials (trace w)).
Proof.
  exact (Connect_already_connected (outcome session_up)
           ltac:(vm_compute; reflexivity) ltac:(vm_compute; reflexivity)).
Defined.

(** ** The dispatch of the read loop *)

(** A frame of "execution_report" goes to its handler and then to the
    lookup of the wildcard. *)
Lemma dispatch_execution_report (c : WsClient) (f : Frame) (r : WsResponse) :
  decoded f = Some r -> Op r = "execution_report"%string ->
  dispatch c f = match lookup_handler c "execution_report" with
                 | Some h => read_invoke h f (read_wildcard f)
                 | None => read_wildcard f
                 end.
Proof. intros Hd Hop. unfold dispatch. rewrite Hd, Hop. reflexivity. Qed.

(** A frame of any other business operation goes to the handler
    registered under its name and from there straight back to the head
    of the loop; the wildcard is looked up only when no such handler is
    registered. *)
Lemma dispatch_other_topic (c : WsClient) (f : Frame) (r : WsResponse) :
  decoded f = Some r ->
  is_control (Op r) = false ->
  Op r <> "execution_report"%string ->
  dispatch c f = match lookup_handler c (Op r) with
                 | Some h => read_invoke h f read_select
                 | None => read_wildcard f
                 end.
Proof.
  intros Hd Hctl Hop. unfold dispatch. rewrite Hd.
  unfold is_control in Hctl.
  destruct (String.eqb (Op r) "auth"); [discriminate|].
  destruct (String.eqb (Op r) "ping"); [discriminate|].
  destruct (String.eqb (Op r) "subscribe"); [discriminate|].
  destruct (String.eqb (Op r) "execution_report") eqn:He; [|reflexivity].
  apply String.eqb_eq in He. contradiction.
Qed.

(** C1, on the code: with a handler under "analytics" and a handler
    under "*", an inbound "analytics" frame is handed to the first one
    only.  The read loop is back in [ReadMessage] and the wildcard
    handler (2) has not been run. *)
Theorem wildcard_skipped_for_registered_topic :
  let acts := session_up ++ subscribe_both "analytics" ++ deliver analytics_frame in
  let w := outcome acts in
  run acts fresh = Some w /\
  handlers (client w) !! "analytics"%string = Some (UserHandler 1) /\
  handlers (client w) !! "*"%string = Some (UserHandler 2) /\
  threads w !! 1%nat = Some (read_blocked 0) /\
  invocations w = [EvInvoke 1 (raw analytics_frame)].
Proof.
  intros acts w.
  split; [vm_compute; reflexivity|]. split; [vm_compute; reflexivity|].
  split; [vm_compute; reflexivity|]. split; vm_compute; reflexivity.
Qed.

(** The sibling path: an "execution_report" frame reaches both. *)
Lemma wildcard_reached_for_execution_report :
  let acts := session_up ++ subscribe_both "execution_report"
              ++ deliver execution_report_frame in
  let w := outcome acts in
  run acts fresh = Some w /\
  invocations w = [EvInvoke 1 (raw execution_report_frame);
                   EvInvoke 2 (raw execution_report_frame)].
Proof.
  intros acts w. split; vm_compute; reflexivity.
Qed.

(** ** The flags *)

(** Both operations that clear [isConnected] clear [isAuthenticated]
    with it. *)
Lemma Disconnect_clears_both (c c' : WsClient) (e : error) (o : Outcome) (tr : Trace) :
  Disconnect c e = (c', o, tr) ->
  isConnected c' = false -> isAuthenticated c' = false \/ isConnected c = false.
Proof.
  unfold Disconnect. destruct (isConnected c) eqn:Hc; cbn [negb].
  - destruct (done (set_reconnect false c)).
    + destruct (conn (set_done Closed (set_reconnect false c))); [destruct e|];
        intros H; inversion H; subst; cbn; intros; try (now left); congruence.
    + intros H; inversion H; subst. cbn. congruence.
  - intros H; inversion H; subst. now right.
Qed.

(** C10, on the code: the confirmation arrives as [authenticate] times
    out.  The read loop has fetched tempHandler, [Connect] runs
    [Disconnect], and then the handler sets [isAuthenticated] without
    looking at [isConnected]: the client is authenticated and not
    connected. *)
Theorem authenticated_without_connection :
  let w := outcome late_confirmation in
  run late_confirmation fresh = Some w /\
  reachable (NewWsClient "key" "secret") w /\
  IsAuthenticated (client w) = true /\
  IsConnected (client w) = false.
Proof.
  intros w.
  assert (Hrun : run late_confirmation fresh = Some w) by (vm_compute; reflexivity).
  split; [exact Hrun|]. split; [exists late_confirmation; exact Hrun|].
  split; vm_compute; reflexivity.
Qed.

(** ** The reconnect flag *)

Lemma Disconnect_reconnect (c c' : WsClient) (e : error) (o : Outcome) (tr : Trace) :
  Disconnect c e = (c', o, tr) ->
  reconnect c' = if isConnected c then false else reconnect c.
Proof.
  unfold Disconnect. destruct (isConnected c); cbn [negb].
  - destruct (done (set_reconnect false c)).
    + destruct (conn (set_done Closed (set_reconnect false c))); [destruct e|];
        intros H; inversion H; subst; reflexivity.
    + intros H; inversion H; subst. reflexivity.
  - intros H; inversion H; subst. reflexivity.
Qed.

Lemma call_errHandler_client (e : string) (w : World) :
  client (call_errHandler e w) = client w.
Proof. unfold call_errHandler. destruct (errHandler (client w)); reflexivity. Qed.

(** A step that does not run the body of [Disconnect] leaves the flag
    alone; one that does clears it when the client is connected. *)
(** By cases on the point the goroutine stands at and on what the
    outside contributes. *)
Ltac step_cases field :=
  try unfold dispatch_wildcard; try unfold SendPing; try unfold SendJSON;
  repeat case_match; try discriminate;
  let H := fresh "H" in
  intros H; inversion H; subst;
  try unfold call_errHandler; repeat case_match;
  unfold goto, spawn, emit, record, with_client, with_threads, with_chans,
    with_sockets, with_panic, with_keepalive;
  cbn [client field]; first [reflexivity | congruence].

Lemma step_reconnect (a : Action) (w w' : World) :
  step a w = Some w' ->
  reconnect (client w')
  = if runs_Disconnect a w && isConnected (client w) then false else reconnect (client w).
Proof.
  unfold step. destruct (panicked w); [discriminate|].
  destruct a as [op | tid e].
  - destruct op as [|ce|topic h|topic|h|werr|b]; cbn [call_step runs_Disconnect andb].
    + intros H; inversion H; subst. reflexivity.
    + destruct (Disconnect (client w) ce) as [[c' o] tr] eqn:Hd.
      pose proof (Disconnect_reconnect _ _ _ _ _ Hd) as Hr.
      destruct o; intros H; inversion H; subst; cbn; exact Hr.
    + intros H; inversion H; subst. reflexivity.
    + intros H; inversion H; subst. reflexivity.
    + intros H; inversion H; subst. reflexivity.
    + step_cases reconnect.
    + intros H; inversion H; subst. reflexivity.
  - cbn [runs_Disconnect].
    destruct (threads w !! tid) as [pc|] eqn:Hpc; [|discriminate].
    destruct pc; destruct e; cbn [thread_step andb]; try discriminate;
      try (step_cases reconnect).
    match goal with
    | |- context [Disconnect ?c ?ce] => destruct (Disconnect c ce) as [[c' o] tr] eqn:Hd
    end.
    pose proof (Disconnect_reconnect _ _ _ _ _ Hd) as Hr.
    destruct o; intros H; inversion H; subst; cbn; exact Hr.
Qed.

(** C2, as the code has it: the flag is cleared exactly by a step that
    runs the body of [Disconnect] on a connected client, be it the
    caller's call or the call [Connect] makes when [authenticate] fails
    or times out, and nothing sets it again.  Every other step leaves
    it as it was: the teardown after a read failure, a failed dial. *)
Theorem reconnect_cleared_by_Disconnect_only (acts : list Action) (w w' : World) :
  run acts w = Some w' ->
  reconnect (client w') = if disconnects acts w then false else reconnect (client w).
Proof.
  revert w. induction acts as [|a rest IH]; intros w Hrun; cbn [run disconnects] in *.
  - inversion Hrun; subst. reflexivity.
  - destruct (step a w) as [w1|] eqn:Hstep; [|discriminate].
    rewrite (IH w1 Hrun), (step_reconnect a w w1 Hstep).
    destruct (runs_Disconnect a w && isConnected (client w)); cbn [orb];
      destruct (disconnects rest w1); reflexivity.
Qed.

Lemma reconnect_cleared_by_Disconnect_only_witness :
  run lost_and_refused fresh = Some (outcome lost_and_refused) /\
  reconnect (client (outcome lost_and_refused))
  = if disconnects lost_and_refused fresh then false else reconnect (client fresh).
Proof.
  assert (H : run lost_and_refused fresh = Some (outcome lost_and_refused))
    by (vm_compute; reflexivity).
  split; [exact H|].
  exact (reconnect_cleared_by_Disconnect_only lost_and_refused fresh
           (outcome lost_and_refused) H).
Defined.

(** After a read failure and a refused reconnection the flag is still
    set; after a rejected or timed-out authentication it is not. *)
Example reconnect_after_read_failure :
  reconnect (client (outcome lost_and_refused)) = true.
Proof. vm_compute. reflexivity. Qed.

(** C2, as stated, fails: the server rejects the authentication (or does
    not answer), the caller never calls [Disconnect], and the flag is
    cleared. *)
Lemma reconnect_disabled_by_failed_authentication :
  let w1 := outcome rejected_authentication in
  let w2 := outcome authentication_timeout in
  reconnect (client fresh) = true /\
  (run rejected_authentication fresh = Some w1 /\
   existsb is_call_Disconnect rejected_authentication = false /\
   IsConnected (client w1) = false /\
   reconnect (client w1) = false) /\
  (run authentication_timeout fresh = Some w2 /\
   existsb is_call_Disconnect authentication_timeout = false /\
   IsConnected (client w2) = false /\
   reconnect (client w2) = false).
Proof.
  intros w1 w2.
  split; [reflexivity|]. split.
  - do 3 (split; [vm_compute; reflexivity|]). vm_compute; reflexivity.
  - do 3 (split; [vm_compute; reflexivity|]). vm_compute; reflexivity.
Qed.

Lemma step_exited (w : World) (tid : nat) (e : Env) :
  threads w !! tid = Some Exited -> step (Run tid e) w = None.
Proof.
  intros H. unfold step. destruct (panicked w); [reflexivity|].
  rewrite H. destruct e; reflexivity.
Qed.

Lemma quiescent_or_exited (w : World) (tid : nat) (e : Env) :
  threads w !! tid = Some Exited \/ threads w !! tid = None ->
  step (Run tid e) w = None.
Proof.
  intros [H|H]; [now apply step_exited|].
  unfold step. destruct (panicked w); [reflexivity|]. now rewrite H.
Qed.

Lemma quiescent_exited (w : World) (tid : nat) (pc : Pc) :
  quiescent w = true -> threads w !! tid = Some pc -> pc = Exited.
Proof.
  unfold quiescent. intros Hq Hpc.
  apply forallb_forall with (x := pc) in Hq.
  - destruct pc; try discriminate. reflexivity.
  - apply list_elem_of_In. eapply list_elem_of_lookup_2. exact Hpc.
Qed.

Lemma quiescent_stuck (w : World) (tid : nat) (e : Env) :
  quiescent w = true -> step (Run tid e) w = None.
Proof.
  intros Hq. destruct (threads w !! tid) as [pc|] eqn:Hpc.
  - apply step_exited. now rewrite Hpc, (quiescent_exited w tid pc Hq Hpc).
  - unfold step. destruct (panicked w); [reflexivity|]. now rewrite Hpc.
Qed.

(** ** Reconnection *)

Lemma dials_app (a b : Trace) : dials (a ++ b) = (dials a + dials b)%nat.
Proof. unfold dials. now rewrite List.filter_app, length_app. Qed.

Lemma refused_retry_run (w : World) (tid k : nat) (e e' : string) :
  panicked w = None ->
  threads w !! tid = Some (read_blocked k) ->
  reconnect (client w) = true ->
  run [Run tid (RecvErr e); Run tid Tau; Run tid Tau; Run tid Tau;
       Run tid (DialErr e'); Run tid Tau] w
  = Some (after_refused_retry w tid e e').
Proof.
  intros Hp Hpc Hre. unfold after_refused_retry.
  destruct w as [c ts cs n tr0 p ka]. cbn [panicked client threads trace] in *. subst p.
  assert (Hlt : (tid < length ts)%nat) by (eapply lookup_lt_Some; exact Hpc).
  assert (Hins : forall pc pc', <[tid := pc]> (<[tid := pc']> ts) = <[tid := pc]> ts)
    by (intros; apply list_insert_insert_eq).
  assert (Hlk : forall pc, <[tid := pc]> ts !! tid = Some pc)
    by (intros; apply list_lookup_insert_eq; exact Hlt).
  destruct (errHandler c) as [id|] eqn:Herr;
    repeat (machine; rewrite ?Herr, ?Hpc, ?Hre, ?Hlk, ?Hins;
            cbn [isConnected set_isConnected set_isAuthenticated reconnect
                 reconnectDelay BaseURL errHandler]);
    reflexivity.
Qed.

Lemma after_refused_retry_threads (w : World) (tid : nat) (e e' : string) :
  threads (after_refused_retry w tid e e') = <[tid := Exited]> (threads w).
Proof.
  destruct w as [c ts cs n tr0 p ka].
  unfold after_refused_retry, call_errHandler, goto, emit, with_client, with_threads.
  cbn [client errHandler set_isAuthenticated set_isConnected].
  destruct (errHandler c); reflexivity.
Qed.

Lemma after_refused_retry_client (w : World) (tid : nat) (e e' : string) :
  client (after_refused_retry w tid e e')
  = set_isAuthenticated false (set_isConnected false (client w)).
Proof.
  destruct w as [c ts cs n tr0 p ka].
  unfold after_refused_retry, call_errHandler, goto, emit, with_client, with_threads.
  cbn [client errHandler set_isAuthenticated set_isConnected].
  destruct (errHandler c); reflexivity.
Qed.

Lemma after_refused_retry_dials (w : World) (tid : nat) (e e' : string) :
  dials (trace (after_refused_retry w tid e e')) = S (dials (trace w)).
Proof.
  destruct w as [c ts cs n tr0 p ka].
  unfold after_refused_retry, call_errHandler, goto, emit, with_client, with_threads.
  cbn [client errHandler set_isAuthenticated set_isConnected].
  destruct (errHandler c); cbn [client threads chans sockets trace panicked stamp map];
    rewrite !dials_app; cbn; lia.
Qed.

(** C3, as the code has it: when the read loop fails with the flag set,
    its deferred function clears the flags, sleeps for [reconnectDelay]
    and calls [Connect] once.  When that call cannot dial, the error
    goes to the error handler and the goroutine ends: it has dialed
    once, it has started nothing, the flag is still set and the client
    is disconnected.  If no other goroutine was running, none is left
    that could try again. *)
Theorem reconnect_attempted_once (w : World) (tid k : nat) (e e' : string) :
  panicked w = None ->
  threads w !! tid = Some (read_blocked k) ->
  reconnect (client w) = true ->
  let w' := after_refused_retry w tid e e' in
  run [Run tid (RecvErr e); Run tid Tau; Run tid Tau; Run tid Tau;
       Run tid (DialErr e'); Run tid Tau] w = Some w' /\
  threads w' = <[tid := Exited]> (threads w) /\
  dials (trace w') = S (dials (trace w)) /\
  reconnect (client w') = true /\
  IsConnected (client w') = false /\
  ((forall t pc, t <> tid -> threads w !! t = Some pc -> pc = Exited) ->
   forall t env, step (Run t env) w' = None).
Proof.
  intros Hp Hpc Hre w'. subst w'.
  split; [exact (refused_retry_run w tid k e e' Hp Hpc Hre)|].
  split; [apply after_refused_retry_threads|].
  split; [apply after_refused_retry_dials|].
  rewrite after_refused_retry_client.
  split; [exact Hre|]. split; [reflexivity|].
  intros Hothers t env. apply quiescent_or_exited.
  rewrite after_refused_retry_threads.
  destruct (decide (t = tid)) as [->|Hne].
  - rewrite list_lookup_insert_eq by (eapply lookup_lt_Some; exact Hpc). now left.
  - rewrite list_lookup_insert_ne by congruence.
    destruct (threads w !! t) as [pc|] eqn:Ht; [|now right].
    left. now rewrite (Hothers t pc Hne Ht).
Qed.

Lemma reconnect_attempted_once_witness :
  let w := outcome session_up in
  let w' := after_refused_retry w 1 "unexpected EOF" "connection refused" in
  run [Run 1 (RecvErr "unexpected EOF"); Run 1 Tau; Run 1 Tau; Run 1 Tau;
       Run 1 (DialErr "connection refused"); Run 1 Tau]%nat w = Some w' /\
  threads w' = <[1%nat := Exited]> (threads w) /\
  dials (trace w') = S (dials (trace w)) /\
  reconnect (client w') = true /\
  IsConnected (client w') = false /\
  ((forall t pc, t <> 1%nat -> threads w !! t = Some pc -> pc = Exited) ->
   forall t env, step (Run t env) w' = None).
Proof.
  exact (reconnect_attempted_once (outcome session_up) 1%nat 0%nat
           "unexpected EOF" "connection refused"
           ltac:(vm_compute; reflexivity) ltac:(vm_compute; reflexivity)
           ltac:(vm_compute; reflexivity)).
Defined.

(** C3, as stated, fails: an established session loses its socket, the
    reconnection attempt is refused, and that was the only attempt.
    [Disconnect] was never called, the flag is still set, the client is
    not connected, the client has dialed twice in all (the first
    connection and the one retry), and no goroutine is left: whatever
    the outside does, nothing runs until the caller calls again. *)
Lemma retry_not_scheduled :
  let w := outcome lost_and_refused in
  run lost_and_refused fresh = Some w /\
  existsb is_call_Disconnect lost_and_refused = false /\
  reconnect (client w) = true /\
  done (client w) = Open /\
  IsConnected (client w) = false /\
  dials (trace w) = 2%nat /\
  quiescent w = true /\
  (forall tid env, step (Run tid env) w = None).
Proof.
  intros w.
  do 6 (split; [vm_compute; reflexivity|]).
  assert (Hq : quiescent w = true) by (vm_compute; reflexivity).
  split; [exact Hq|]. intros tid env. apply quiescent_stuck. exact Hq.
Qed.

(** * Further properties of the streaming client *)

(** ** Writes *)

Lemma Disconnect_writes (c c' : WsClient) (e : error) (o : Outcome) (tr : Trace) :
  Disconnect c e = (c', o, tr) -> Forall write_ok tr.
Proof.
  unfold Disconnect. destruct (isConnected c) eqn:Hc; cbn [negb].
  - destruct (done (set_reconnect false c)).
    + destruct (conn (set_done Closed (set_reconnect false c))) as [k|] eqn:Hk;
        [destruct e|]; intros H; inversion H; subst; repeat constructor;
        cbn; first [exact Hc | exact Hk].
    + intros H; inversion H; subst. constructor.
  - intros H; inversion H; subst. constructor.
Qed.

Ltac writes_ok :=
  intros Hall; rewrite ?Forall_app; repeat split; try assumption;
  cbn [stamp map]; repeat constructor; cbn; try assumption; try congruence.

Lemma step_writes (a : Action) (w w' : World) :
  step a w = Some w' -> Forall write_ok (trace w) -> Forall write_ok (trace w').
Proof.
  unfold step. destruct (panicked w); [discriminate|].
  destruct a as [op | tid e].
  - destruct op as [|ce|topic h|topic|h|werr|b]; cbn [call_step];
      with_Disconnect Disconnect_writes; step_split; writes_ok.
  - destruct (threads w !! tid) as [pc|] eqn:Hpc; [|discriminate].
    destruct pc; destruct e; cbn [thread_step]; try discriminate;
      with_Disconnect Disconnect_writes; step_split; writes_ok.
Qed.

(** X1: In every run from a client that has written nothing yet, each frame
    written to a socket, JSON or close frame, was written while
    [isConnected] was set and on the socket [c.conn] held then. *)
Theorem writes_only_while_connected (c : WsClient) (acts : list Action) (w : World) :
  run acts (init_world c) = Some w -> Forall write_ok (trace w).
Proof.
  assert (Hgen : forall acts w0 w1, run acts w0 = Some w1 ->
                   Forall write_ok (trace w0) -> Forall write_ok (trace w1)).
  { clear. induction acts as [|a rest IH]; intros w0 w1 Hrun Hall; cbn [run] in Hrun.
    - inversion Hrun; subst. exact Hall.
    - destruct (step a w0) as [w2|] eqn:Hstep; [|discriminate].
      eapply IH; [exact Hrun|]. eapply step_writes; eassumption. }
  intros Hrun. eapply Hgen; [exact Hrun|]. constructor.
Qed.

Lemma writes_only_while_connected_witness :
  Forall write_ok (trace (outcome lost_and_refused)).
Proof.
  exact (writes_only_while_connected (NewWsClient "key" "secret") lost_and_refused
           (outcome lost_and_refused) ltac:(vm_compute; reflexivity)).
Defined.

(** ** The channel done *)

Lemma Disconnect_done (c c' : WsClient) (e : error) (o : Outcome) (tr : Trace) :
  Disconnect c e = (c', o, tr) -> done c = Closed -> done c' = Closed.
Proof.
  unfold Disconnect. destruct (isConnected c); cbn [negb].
  - destruct (done (set_reconnect false c)) eqn:Hdone.
    + cbn in Hdone. congruence.
    + intros H; inversion H; subst. cbn. auto.
  - intros H; inversion H; subst. auto.
Qed.

Lemma step_done (a : Action) (w w' : World) :
  step a w = Some w' -> done (client w) = Closed -> done (client w') = Closed.
Proof.
  unfold step. destruct (panicked w); [discriminate|].
  destruct a as [op | tid e].
  - destruct op as [|ce|topic h|topic|h|werr|b]; cbn [call_step];
      with_Disconnect Disconnect_done; step_split; cbn; auto.
  - destruct (threads w !! tid) as [pc|] eqn:Hpc; [|discriminate].
    destruct pc; destruct e; cbn [thread_step]; try discriminate;
      with_Disconnect Disconnect_done; step_split; cbn; auto.
Qed.

(** X2: [done] is made once, in [NewWsClient], and only ever closed: once it
    is closed it stays closed through every run, so every read loop that
    comes to its select afterwards leaves for its deferred function
    without reading, and [keepAlive] may leave at its select. *)
Theorem done_stays_closed (acts : list Action) (w w' : World) :
  run acts w = Some w' ->
  done (client w) = Closed ->
  done (client w') = Closed /\
  (panicked w' = None ->
   forall tid, threads w' !! tid = Some read_select ->
     step (Run tid Tau) w' = Some (goto tid defer_clear w')).
Proof.
  intros Hrun Hdone.
  assert (Hc : done (client w') = Closed).
  { revert w Hrun Hdone. induction acts as [|a rest IH]; intros w Hrun Hdone;
      cbn [run] in Hrun.
    - inversion Hrun; subst. exact Hdone.
    - destruct (step a w) as [w2|] eqn:Hstep; [|discriminate].
      eapply IH; [exact Hrun|]. eapply step_done; eassumption. }
  split; [exact Hc|]. intros Hp tid Hpc.
  unfold step. rewrite Hp, Hpc. cbn [thread_step]. now rewrite Hc.
Qed.

Lemma done_stays_closed_witness :
  let w' := outcome (authentication_timeout ++ reconnect_by_caller) in
  done (client w') = Closed /\
  (panicked w' = None ->
   forall tid, threads w' !! tid = Some read_select ->
     step (Run tid Tau) w' = Some (goto tid defer_clear w')).
Proof.
  intros w'.
  assert (Hrun : run reconnect_by_caller (outcome authentication_timeout) = Some w')
    by (vm_compute; reflexivity).
  assert (Hdone : done (client (outcome authentication_timeout)) = Closed)
    by (vm_compute; reflexivity).
  exact (done_stays_closed reconnect_by_caller (outcome authentication_timeout) w'
           Hrun Hdone).
Defined.

(** ** Who sets isAuthenticated *)

Lemma Disconnect_unauthenticated (c c' : WsClient) (e : error) (o : Outcome) (tr : Trace) :
  Disconnect c e = (c', o, tr) -> isAuthenticated c = false -> isAuthenticated c' = false.
Proof.
  unfold Disconnect. destruct (isConnected c); cbn [negb].
  - destruct (done (set_reconnect false c)).
    + destruct (conn (set_done Closed (set_reconnect false c))); [destruct e|];
        intros H; inversion H; subst; cbn; auto.
    + intros H; inversion H; subst. cbn. auto.
  - intros H; inversion H; subst. auto.
Qed.

Ltac no_change :=
  intros;
  repeat match goal with
         | H : ?A -> _, H' : ?A |- _ => specialize (H H')
         end;
  congruence.

(** X3: The one step that sets [isAuthenticated] is the read loop running
    tempHandler on a frame that decodes to operation "auth" with
    success true.  No call of the caller, no other frame and no other
    goroutine authenticates the client. *)
Theorem authenticated_only_by_auth_frame (a : Action) (w w' : World) :
  step a w = Some w' ->
  isAuthenticated (client w) = false ->
  isAuthenticated (client w') = true ->
  exists tid ch f next r,
    a = Run tid Tau /\
    threads w !! tid = Some (read_invoke (AuthTempHandler ch) f next) /\
    decoded f = Some r /\ Op r = "auth"%string /\ Success r = true.
Proof.
  unfold step. destruct (panicked w); [discriminate|].
  destruct a as [op | tid e].
  - destruct op as [|ce|topic h|topic|h|werr|b]; cbn [call_step];
      with_Disconnect Disconnect_unauthenticated; step_split; cbn; no_change.
  - destruct (threads w !! tid) as [pc|] eqn:Hpc; [|discriminate].
    destruct pc; destruct e; cbn [thread_step]; try discriminate;
      with_Disconnect Disconnect_unauthenticated; step_split; cbn;
      try no_change.
    intros _ _. do 5 eexists. split; [reflexivity|]. split; [exact Hpc|].
    split; [eassumption|]. split; [|assumption].
    apply String.eqb_eq. assumption.
Qed.

Lemma authenticated_only_by_auth_frame_witness :
  exists tid ch f next r,
    Run 1 Tau = Run tid Tau /\
    threads (outcome confirmation_fetched) !! tid
    = Some (read_invoke (AuthTempHandler ch) f next) /\
    decoded f = Some r /\ Op r = "auth"%string /\ Success r = true.
Proof.
  exact (authenticated_only_by_auth_frame (Run 1 Tau) (outcome confirmation_fetched)
           (outcome (confirmation_fetched ++ [Run 1 Tau]))
           ltac:(vm_compute; reflexivity) ltac:(vm_compute; reflexivity)
           ltac:(vm_compute; reflexivity)).
Defined.

(** ** Running goroutines of an arbitrary world *)

Lemma lookup_spawned0 {A} (ts : list A) a r : (ts ++ a :: r) !! length ts = Some a.
Proof. induction ts as [|t ts IH]; [reflexivity | exact IH]. Qed.

Lemma lookup_spawned1 {A} (ts : list A) a b r :
  (ts ++ a :: b :: r) !! S (length ts) = Some b.
Proof. induction ts as [|t ts IH]; [reflexivity | exact IH]. Qed.

Lemma lookup_spawned2 {A} (ts : list A) a b c r :
  (ts ++ a :: b :: c :: r) !! S (S (length ts)) = Some c.
Proof. induction ts as [|t ts IH]; [reflexivity | exact IH]. Qed.

Lemma insert_spawned0 {A} (ts : list A) a r x :
  <[length ts := x]> (ts ++ a :: r) = ts ++ x :: r.
Proof. induction ts as [|t ts IH]; [reflexivity | simpl; now rewrite IH]. Qed.

Lemma insert_spawned1 {A} (ts : list A) a b r x :
  <[S (length ts) := x]> (ts ++ a :: b :: r) = ts ++ a :: x :: r.
Proof. induction ts as [|t ts IH]; [reflexivity | simpl; now rewrite IH]. Qed.

Lemma insert_spawned2 {A} (ts : list A) a b c r x :
  <[S (S (length ts)) := x]> (ts ++ a :: b :: c :: r) = ts ++ a :: b :: x :: r.
Proof. induction ts as [|t ts IH]; [reflexivity | simpl; now rewrite IH]. Qed.

Lemma app_spawned {A} (ts : list A) (l : list A) a : (ts ++ l) ++ [a] = ts ++ (l ++ [a]).
Proof. now rewrite <- app_assoc. Qed.

(** One step of a run at a time: unfold the world updates of the step
    just taken, and resolve the goroutine it addresses. *)
Ltac go :=
  repeat first
    [ progress unfold goto, spawn, emit, record, call_errHandler,
               with_client, with_threads, with_chans, with_sockets, with_panic, with_keepalive
    | progress cbn [run step call_step thread_step stamp map app
                    client threads chans sockets trace panicked WebsocketKeepalive negb]
    | rewrite app_spawned
    | rewrite lookup_spawned0 | rewrite lookup_spawned1 | rewrite lookup_spawned2
    | rewrite insert_spawned0 | rewrite insert_spawned1 | rewrite insert_spawned2 ].

(** The fields of a client after updates. *)
Ltac gof := repeat (progress (go; fields)).

(** ** Connect: the dial fails *)

(** X4: When the dial fails [Connect] returns the dial error wrapped in
    "failed to connect", and that is all: the client is as it was, no
    read loop and no keepalive have been started, and the caller is
    free to call [Connect] again. *)
Theorem Connect_dial_failure (w : World) (e : string) :
  panicked w = None ->
  IsConnected (client w) = false ->
  let tid := length (threads w) in
  run [Call CallConnect; Run tid Tau; Run tid (DialErr e); Run tid Tau] w
  = Some (emit [EvDial (BaseURL (client w));
                EvReturn "Connect" (Some ("failed to connect: " ++ e)%string)]
            (with_threads (threads w ++ [Exited]) w)).
Proof.
  intros Hp Hconn tid. destruct w as [c ts cs n tr0 p ka].
  unfold IsConnected in Hconn. cbn [panicked client threads] in *. subst p tid.
  go. rewrite Hconn. go. rewrite <- ?app_assoc. reflexivity.
Qed.

(** ** Connect: the server confirms *)

(** X5: One schedule of a successful [Connect]: the dial succeeds, the
    auth frame is written, [authenticate] stores tempHandler, and only
    then does the read loop receive an "auth" frame of success true and
    hand it to tempHandler.  In this schedule [Connect] returns nil,
    the client is connected and authenticated on the new socket, the
    temporary handler is gone from the registry (and with it whatever
    the caller had stored under "__auth__"), the read loop is running,
    [keepAlive] has been started exactly when [WebsocketKeepalive] is
    set, and the wire has seen the dial and the auth frame only.  (The
    order is not forced by the code: the handler is stored after the
    frame is written, see [confirmation_before_handler] below.) *)
Theorem Connect_success (w : World) (now : Time) (f : Frame) (r : WsResponse) :
  panicked w = None ->
  IsConnected (client w) = false ->
  done (client w) = Open ->
  decoded f = Some r -> Op r = "auth"%string -> Success r = true ->
  let c := client w in
  let t0 := length (threads w) in
  let t1 := S t0 in
  let k := sockets w in
  exists w',
    run [Call CallConnect; Run t0 Tau; Run t0 DialOk; Run t0 Tau; Run t0 Tau;
         Run t0 (Now now None); Run t0 Tau;
         Run t1 Tau; Run t1 Tau; Run t1 (RecvMsg f); Run t1 Tau; Run t1 Tau; Run t1 Tau;
         Run t0 ChanRecv; Run t0 Tau; Run t0 Tau; Run t0 Tau; Run t1 Tau; Run t1 Tau] w
    = Some w' /\
    client w' = set_handlers (delete "__auth__"%string (handlers c))
                  (set_isAuthenticated true (set_isConnected true (set_conn (Some k) c))) /\
    threads w' = threads w ++ [Exited; read_blocked k]
                 ++ (if WebsocketKeepalive w then [keep_select] else []) /\
    events (trace w')
    = events (trace w) ++ [EvDial (BaseURL c); EvWriteJSON k (authMsg c now);
                           EvReturn "Connect" None].
Proof.
  intros Hp Hconn Hdone Hdec Hop Hok c t0 t1 k. destruct w as [c0 ts cs n tr0 p ka].
  unfold IsConnected in Hconn.
  cbn [panicked client threads sockets trace WebsocketKeepalive] in *.
  subst p c t0 t1 k.
  destruct ka; eexists.
  all: split;
    [ gof; rewrite Hconn; gof; unfold SendJSON; gof; rewrite Hdone; gof;
      unfold dispatch; rewrite Hdec, Hop; cbn [String.eqb Ascii.eqb Bool.eqb];
      unfold lookup_handler; gof; rewrite lookup_insert_eq; gof;
      rewrite Hdec, Hop; cbn [String.eqb Ascii.eqb Bool.eqb]; rewrite Hok; gof;
      rewrite Hdone; gof; reflexivity
    | cbn [client threads trace]; fields; rewrite delete_insert_eq;
      split; [reflexivity|]; split; [reflexivity|];
      unfold events; rewrite !map_app; cbn [map snd]; rewrite <- ?app_assoc;
      reflexivity ].
Qed.

Lemma Connect_dial_failure_witness :
  let tid := length (threads fresh) in
  run [Call CallConnect; Run tid Tau; Run tid (DialErr "connection refused"); Run tid Tau] fresh
  = Some (emit [EvDial (BaseURL (client fresh));
                EvReturn "Connect" (Some ("failed to connect: " ++ "connection refused")%string)]
            (with_threads (threads fresh ++ [Exited]) fresh)).
Proof.
  exact (Connect_dial_failure fresh "connection refused" eq_refl eq_refl).
Defined.

Lemma Connect_success_witness :
  let w := fresh in
  let c := client w in
  let t0 := length (threads w) in
  let t1 := S t0 in
  let k := sockets w in
  exists w',
    run [Call CallConnect; Run t0 Tau; Run t0 DialOk; Run t0 Tau; Run t0 Tau;
         Run t0 (Now clock None); Run t0 Tau;
         Run t1 Tau; Run t1 Tau; Run t1 (RecvMsg auth_ok); Run t1 Tau; Run t1 Tau; Run t1 Tau;
         Run t0 ChanRecv; Run t0 Tau; Run t0 Tau; Run t0 Tau; Run t1 Tau; Run t1 Tau] w
    = Some w' /\
    client w' = set_handlers (delete "__auth__"%string (handlers c))
                  (set_isAuthenticated true (set_isConnected true (set_conn (Some k) c))) /\
    threads w' = threads w ++ [Exited; read_blocked k]
                 ++ (if WebsocketKeepalive w then [keep_select] else []) /\
    events (trace w')
    = events (trace w) ++ [EvDial (BaseURL c); EvWriteJSON k (authMsg c clock);
                           EvReturn "Connect" None].
Proof.
  exact (Connect_success fresh clock auth_ok
           {| Op := "auth"; Success := true; Message := "map[]" |}
           eq_refl eq_refl eq_refl eq_refl eq_refl eq_refl).
Defined.

(** The same schedule from the start of the program, with the package
    variable as declared and after the program has cleared it. *)
Example keepAlive_started_when_enabled :
  threads (outcome session_up) = [Exited; read_blocked 0; keep_select] /\
  run (Call (SetWebsocketKeepalive false) :: session_up) fresh
  = Some (outcome (Call (SetWebsocketKeepalive false) :: session_up)) /\
  threads (outcome (Call (SetWebsocketKeepalive false) :: session_up))
  = [Exited; read_blocked 0].
Proof.
  split; [vm_compute; reflexivity|]. split; vm_compute; reflexivity.
Qed.

(** [Disconnect] on a connected client whose socket closes cleanly. *)
Lemma Disconnect_connected (c : WsClient) (k : nat) :
  isConnected c = true -> done c = Open -> conn c = Some k ->
  Disconnect c None
  = (set_conn None (set_isAuthenticated false (set_isConnected false
       (set_done Closed (set_reconnect false c)))),
     Returned None,
     stamp (set_done Closed (set_reconnect false c)) [EvWriteClose k; EvClose k]).
Proof.
  intros Hc Hd Hk. unfold Disconnect. rewrite Hc. cbn [negb]. fields.
  rewrite Hd, Hk. reflexivity.
Qed.

(** ** Connect: the server does not answer *)



(** ** Connect: the confirmation overtakes the handler *)

(** X24: [authenticate] writes the auth frame first and stores tempHandler
    afterwards, in a later critical section.  One schedule in between:
    the read loop receives the server's "auth" frame and looks up
    "__auth__" before the handler is stored.  The frame reaches no
    handler and is gone, whether it confirms or rejects; [authenticate]
    then waits its ten seconds, and [Connect] returns "authentication
    failed: authentication timeout" having run [Disconnect]: the client
    is not connected, [done] is closed and the reconnect flag is
    cleared. *)
Theorem confirmation_before_handler (w : World) (now : Time) (f : Frame) (r : WsResponse) :
  panicked w = None ->
  IsConnected (client w) = false ->
  done (client w) = Open ->
  lookup_handler (client w) "__auth__" = None ->
  decoded f = Some r -> Op r = "auth"%string ->
  let c := client w in
  let t0 := length (threads w) in
  let t1 := S t0 in
  let k := sockets w in
  exists w',
    run [Call CallConnect; Run t0 Tau; Run t0 DialOk; Run t0 Tau; Run t0 Tau;
         Run t0 (Now now None);
         Run t1 Tau; Run t1 Tau; Run t1 (RecvMsg f); Run t1 Tau;
         Run t0 Tau; Run t0 Timeout; Run t0 Tau; Run t0 (CloseRes None); Run t0 Tau] w
    = Some w' /\
    IsConnected (client w') = false /\
    IsAuthenticated (client w') = false /\
    conn (client w') = None /\
    done (client w') = Closed /\
    reconnect (client w') = false /\
    handlers (client w') = delete "__auth__"%string (handlers c) /\
    threads w' = threads w ++ [Exited; read_select] /\
    events (trace w')
    = events (trace w) ++
      [EvDial (BaseURL c); EvWriteJSON k (authMsg c now); EvWriteClose k; EvClose k;
       EvReturn "Connect" (Some "authentication failed: authentication timeout"%string)].
Proof.
  intros Hp Hconn Hdone Hnone Hdec Hop c t0 t1 k. destruct w as [c0 ts cs n tr0 p ka].
  unfold IsConnected in Hconn. cbn [panicked client threads sockets trace] in *.
  subst p c t0 t1 k.
  eexists. split.
  - gof. rewrite Hconn. gof. unfold SendJSON. gof. rewrite Hdone. gof.
    unfold dispatch. rewrite Hdec, Hop. cbn [String.eqb Ascii.eqb Bool.eqb].
    change (lookup_handler _ "__auth__") with (lookup_handler c0 "__auth__").
    rewrite Hnone. gof.
    rewrite (Disconnect_connected _ n) by first [reflexivity | exact Hdone].
    gof. reflexivity.
  - cbn [client threads trace]. unfold IsConnected, IsAuthenticated. fields.
    rewrite delete_insert_eq. do 7 (split; [reflexivity|]).
    unfold events. rewrite !map_app. cbn [map snd]. rewrite <- ?app_assoc. reflexivity.
Qed.

Lemma confirmation_before_handler_witness :
  let w := fresh in
  let c := client w in
  let t0 := length (threads w) in
  let t1 := S t0 in
  let k := sockets w in
  exists w',
    run [Call CallConnect; Run t0 Tau; Run t0 DialOk; Run t0 Tau; Run t0 Tau;
         Run t0 (Now clock None);
         Run t1 Tau; Run t1 Tau; Run t1 (RecvMsg auth_ok); Run t1 Tau;
         Run t0 Tau; Run t0 Timeout; Run t0 Tau; Run t0 (CloseRes None); Run t0 Tau] w
    = Some w' /\
    IsConnected (client w') = false /\
    IsAuthenticated (client w') = false /\
    conn (client w') = None /\
    done (client w') = Closed /\
    reconnect (client w') = false /\
    handlers (client w') = delete "__auth__"%string (handlers c) /\
    threads w' = threads w ++ [Exited; read_select] /\
    events (trace w')
    = events (trace w) ++
      [EvDial (BaseURL c); EvWriteJSON k (authMsg c clock); EvWriteClose k; EvClose k;
       EvReturn "Connect" (Some "authentication failed: authentication timeout"%string)].
Proof.
  exact (confirmation_before_handler fresh clock auth_ok
           {| Op := "auth"; Success := true; Message := "map[]" |}
           eq_refl eq_refl eq_refl eq_refl eq_refl eq_refl).
Defined.

(** ** Disconnect, then Connect, then Disconnect *)

(** X7: [done] is not made anew by [Connect].  After a [Disconnect] that
    returned nil, a [Connect] that has dialed again and set
    [isConnected], and a second [Disconnect] before the new read loop
    has cleared the flag, the second [Disconnect] closes the closed
    channel: the program panics. *)
Theorem Disconnect_after_reconnect_panics (w : World) (k0 : nat) (close_err : error) :
  panicked w = None ->
  IsConnected (client w) = true ->
  done (client w) = Open ->
  conn (client w) = Some k0 ->
  let t := length (threads w) in
  exists w',
    run [Call (CallDisconnect None); Call CallConnect; Run t Tau; Run t DialOk; Run t Tau;
         Call (CallDisconnect close_err)] w = Some w' /\
    panicked w' = Some "close of closed channel"%string.
Proof.
  intros Hp Hconn Hdone Hk t. destruct w as [c0 ts cs n tr0 p ka].
  unfold IsConnected in Hconn. cbn [panicked client threads sockets trace] in *.
  subst p t.
  eexists. split.
  - gof. rewrite (Disconnect_connected _ k0 Hconn Hdone Hk). gof.
    unfold Disconnect. gof. reflexivity.
  - reflexivity.
Qed.

Lemma Disconnect_after_reconnect_panics_witness :
  let w := outcome session_up in
  let t := length (threads w) in
  exists w',
    run [Call (CallDisconnect None); Call CallConnect; Run t Tau; Run t DialOk; Run t Tau;
         Call (CallDisconnect None)] w = Some w' /\
    panicked w' = Some "close of closed channel"%string.
Proof.
  exact (Disconnect_after_reconnect_panics (outcome session_up) 0%nat None
           ltac:(vm_compute; reflexivity) ltac:(vm_compute; reflexivity)
           ltac:(vm_compute; reflexivity) ltac:(vm_compute; reflexivity)).
Defined.

(** ** A goroutine somewhere in the world *)

Lemma lookup_goto (ts : list Pc) (tid : nat) (pc0 pc : Pc) :
  ts !! tid = Some pc0 -> <[tid := pc]> ts !! tid = Some pc.
Proof. intros H. apply list_lookup_insert_eq. eapply lookup_lt_Some. exact H. Qed.

Lemma insert_goto (ts : list Pc) (tid : nat) (pc pc' : Pc) :
  <[tid := pc]> (<[tid := pc']> ts) = <[tid := pc]> ts.
Proof. apply list_insert_insert_eq. Qed.

Ltac gof_at Hpc :=
  repeat (progress (go; fields;
                    rewrite ?Hpc, ?(lookup_goto _ _ _ _ Hpc), ?insert_goto)).

(** ** The read loop fails with reconnection disabled *)

(** X8: When [ReadMessage] fails and the reconnect flag is cleared, the
    error handler (if set) is run once with the read error, both flags
    are cleared and the read loop ends.  It does not dial, it does not
    close the socket and it leaves [c.conn] as it was. *)
Theorem read_failure_without_reconnect (w : World) (tid k : nat) (e : string) :
  panicked w = None ->
  threads w !! tid = Some (read_blocked k) ->
  reconnect (client w) = false ->
  run [Run tid (RecvErr e); Run tid Tau; Run tid Tau] w
  = Some (goto tid Exited
            (with_client (set_isAuthenticated false (set_isConnected false (client w)))
               (call_errHandler e w))).
Proof.
  intros Hp Hpc Hre. destruct w as [c ts cs n tr0 p ka].
  cbn [panicked client threads] in *. subst p.
  destruct (errHandler c) as [id|] eqn:Herr;
    gof_at Hpc; rewrite ?Herr; gof_at Hpc; rewrite Hre; gof_at Hpc; rewrite ?Herr;
    gof_at Hpc; reflexivity.
Qed.

Lemma read_failure_without_reconnect_witness :
  let w := with_client (set_reconnect false (client (outcome session_up))) (outcome session_up) in
  run [Run 1 (RecvErr "unexpected EOF"); Run 1 Tau; Run 1 Tau]%nat w
  = Some (goto 1 Exited
            (with_client (set_isAuthenticated false (set_isConnected false (client w)))
               (call_errHandler "unexpected EOF" w))).
Proof.
  exact (read_failure_without_reconnect
           (with_client (set_reconnect false (client (outcome session_up)))
              (outcome session_up))
           1%nat 0%nat "unexpected EOF"
           ltac:(vm_compute; reflexivity) ltac:(vm_compute; reflexivity)
           ltac:(vm_compute; reflexivity)).
Defined.

(** ** keepAlive *)

(** X9: A ping that cannot be written ends [keepAlive] and goes to the error
    handler, and that is all it does: the flags, the socket and the
    reconnect flag are as before, nothing is torn down and no
    reconnection is started. *)
Theorem keepAlive_ping_failure (w : World) (tid k : nat) (e : string) :
  panicked w = None ->
  threads w !! tid = Some keep_select ->
  IsConnected (client w) = true ->
  conn (client w) = Some k ->
  let w' := goto tid Exited
              (call_errHandler e (record [(client w, EvWriteJSON k pingMsg)] w)) in
  run [Run tid Tick; Run tid Tau; Run tid (WriteRes (Some e))] w = Some w' /\
  client w' = client w /\
  dials (trace w') = dials (trace w).
Proof.
  intros Hp Hpc Hconn Hk w'. subst w'. destruct w as [c ts cs n tr0 p ka].
  unfold IsConnected in Hconn. cbn [panicked client threads trace] in *. subst p.
  destruct (errHandler c) as [id|] eqn:Herr;
    (split;
     [ gof_at Hpc; rewrite Hconn; gof_at Hpc; unfold SendPing, SendJSON;
       rewrite Hconn, Hk; gof_at Hpc; rewrite ?Herr; gof_at Hpc; reflexivity
     | gof; rewrite ?Herr; gof; split; [reflexivity|];
       rewrite !dials_app; cbn; lia ]).
Qed.

Lemma keepAlive_ping_failure_witness :
  let w := outcome session_up in
  let w' := goto 2 Exited
              (call_errHandler "broken pipe"
                 (record [(client w, EvWriteJSON 0 pingMsg)] w)) in
  run [Run 2 Tick; Run 2 Tau; Run 2 (WriteRes (Some "broken pipe"%string))]%nat w = Some w' /\
  client w' = client w /\
  dials (trace w') = dials (trace w).
Proof.
  exact (keepAlive_ping_failure (outcome session_up) 2%nat 0%nat "broken pipe"
           ltac:(vm_compute; reflexivity) ltac:(vm_compute; reflexivity)
           ltac:(vm_compute; reflexivity) ltac:(vm_compute; reflexivity)).
Defined.

(** X10: On a client that is not connected the ticker ends [keepAlive]
    without a write; on a connected one a successful ping writes the
    ping frame once and waits for the next tick. *)
Theorem keepAlive_tick (w : World) (tid : nat) :
  panicked w = None ->
  threads w !! tid = Some keep_select ->
  (IsConnected (client w) = false ->
   run [Run tid Tick; Run tid Tau] w = Some (goto tid Exited w)) /\
  (forall k, IsConnected (client w) = true -> conn (client w) = Some k ->
   run [Run tid Tick; Run tid Tau; Run tid (WriteRes None)] w
   = Some (goto tid keep_select (record [(client w, EvWriteJSON k pingMsg)] w))).
Proof.
  intros Hp Hpc. destruct w as [c ts cs n tr0 p ka].
  unfold IsConnected. cbn [panicked client threads trace] in *. subst p. split.
  - intros Hconn. gof_at Hpc. rewrite Hconn. gof_at Hpc. reflexivity.
  - intros k Hconn Hk. gof_at Hpc. rewrite Hconn. gof_at Hpc.
    unfold SendPing, SendJSON. rewrite Hconn, Hk. gof_at Hpc. reflexivity.
Qed.

Lemma keepAlive_tick_witness :
  let w := outcome session_up in
  (IsConnected (client w) = false ->
   run [Run 2 Tick; Run 2 Tau]%nat w = Some (goto 2 Exited w)) /\
  (forall k, IsConnected (client w) = true -> conn (client w) = Some k ->
   run [Run 2 Tick; Run 2 Tau; Run 2 (WriteRes None)]%nat w
   = Some (goto 2 keep_select (record [(client w, EvWriteJSON k pingMsg)] w))).
Proof.
  exact (keepAlive_tick (outcome session_up) 2%nat
           ltac:(vm_compute; reflexivity) ltac:(vm_compute; reflexivity)).
Defined.

(** ** What the read loop does with a frame *)

Lemma eqb_neq (a b : string) : a <> b -> String.eqb a b = false.
Proof. intros H. apply String.eqb_neq. exact H. Qed.

(** X11: A frame whose operation has no handler of its own goes to the
    wildcard handler, once, with the raw bytes; "execution_report" is
    no exception.  The control operations are not business frames. *)
Theorem unregistered_topic_goes_to_wildcard (w : World) (tid k : nat) (f : Frame)
    (r : WsResponse) (id : nat) :
  panicked w = None ->
  threads w !! tid = Some (read_blocked k) ->
  decoded f = Some r ->
  is_control (Op r) = false ->
  lookup_handler (client w) (Op r) = None ->
  lookup_handler (client w) "*" = Some (UserHandler id) ->
  run [Run tid (RecvMsg f); Run tid Tau; Run tid Tau; Run tid Tau] w
  = Some (goto tid read_select (emit [EvInvoke id (raw f)] w)).
Proof.
  intros Hp Hpc Hdec Hctl Hnone Hwild. destruct w as [c ts cs n tr0 p ka].
  cbn [panicked client threads] in *. subst p.
  assert (Hd : dispatch c f = read_wildcard f).
  { unfold dispatch. rewrite Hdec. unfold is_control in Hctl.
    destruct (String.eqb (Op r) "auth"); [discriminate|].
    destruct (String.eqb (Op r) "ping"); [discriminate|].
    destruct (String.eqb (Op r) "subscribe"); [discriminate|].
    destruct (String.eqb (Op r) "execution_report") eqn:He.
    - apply String.eqb_eq in He. rewrite He in Hnone. now rewrite Hnone.
    - now rewrite Hnone. }
  gof_at Hpc. rewrite Hd. gof_at Hpc. unfold dispatch_wildcard. rewrite Hwild.
  gof_at Hpc. reflexivity.
Qed.

Lemma unregistered_topic_goes_to_wildcard_witness :
  let w := outcome (session_up ++ subscribe_both "analytics") in
  let f := envelope "trades" true in
  run [Run 1 (RecvMsg f); Run 1 Tau; Run 1 Tau; Run 1 Tau]%nat w
  = Some (goto 1 read_select (emit [EvInvoke 2 (raw f)] w)).
Proof.
  exact (unregistered_topic_goes_to_wildcard
           (outcome (session_up ++ subscribe_both "analytics")) 1%nat 0%nat
           (envelope "trades" true)
           {| Op := "trades"; Success := true; Message := "map[]" |} 2%nat
           ltac:(vm_compute; reflexivity) ltac:(vm_compute; reflexivity)
           eq_refl eq_refl
           ltac:(vm_compute; reflexivity) ltac:(vm_compute; reflexivity)).
Defined.

(** X12: An "execution_report" frame goes to the handler registered for it
    and then, with the same bytes, to the wildcard handler, in this
    order, each once. *)
Theorem execution_report_reaches_both (w : World) (tid k : nat) (f : Frame)
    (r : WsResponse) (i j : nat) :
  panicked w = None ->
  threads w !! tid = Some (read_blocked k) ->
  decoded f = Some r ->
  Op r = "execution_report"%string ->
  lookup_handler (client w) "execution_report" = Some (UserHandler i) ->
  lookup_handler (client w) "*" = Some (UserHandler j) ->
  run [Run tid (RecvMsg f); Run tid Tau; Run tid Tau; Run tid Tau; Run tid Tau] w
  = Some (goto tid read_select (emit [EvInvoke i (raw f); EvInvoke j (raw f)] w)).
Proof.
  intros Hp Hpc Hdec Hop Hspec Hwild. destruct w as [c ts cs n tr0 p ka].
  cbn [panicked client threads] in *. subst p.
  gof_at Hpc. rewrite (dispatch_execution_report c f r Hdec Hop), Hspec.
  gof_at Hpc. unfold dispatch_wildcard. rewrite Hwild. gof_at Hpc. reflexivity.
Qed.

Lemma execution_report_reaches_both_witness :
  let w := outcome (session_up ++ subscribe_both "execution_report") in
  let f := execution_report_frame in
  run [Run 1 (RecvMsg f); Run 1 Tau; Run 1 Tau; Run 1 Tau; Run 1 Tau]%nat w
  = Some (goto 1 read_select (emit [EvInvoke 1 (raw f); EvInvoke 2 (raw f)] w)).
Proof.
  exact (execution_report_reaches_both
           (outcome (session_up ++ subscribe_both "execution_report")) 1%nat 0%nat
           execution_report_frame
           {| Op := "execution_report"; Success := true; Message := "map[]" |} 1%nat 2%nat
           ltac:(vm_compute; reflexivity) ltac:(vm_compute; reflexivity)
           eq_refl eq_refl
           ltac:(vm_compute; reflexivity) ltac:(vm_compute; reflexivity)).
Defined.

(** X13: Frames that reach no handler at all, the wildcard included: a frame
    that does not decode, a "ping" or "subscribe" acknowledgement, and
    an "auth" frame when no [authenticate] is waiting for it.  The read
    loop goes back to its select; the client, an unsolicited
    confirmation notwithstanding, is as it was. *)
Theorem frames_dropped (w : World) (tid k : nat) (f : Frame) :
  panicked w = None ->
  threads w !! tid = Some (read_blocked k) ->
  (decoded f = None \/
   exists r, decoded f = Some r /\
             (Op r = "ping"%string \/ Op r = "subscribe"%string \/
              (Op r = "auth"%string /\ lookup_handler (client w) "__auth__" = None))) ->
  run [Run tid (RecvMsg f); Run tid Tau] w = Some (goto tid read_select w).
Proof.
  intros Hp Hpc Hf. destruct w as [c ts cs n tr0 p ka].
  cbn [panicked client threads] in *. subst p.
  assert (Hd : dispatch c f = read_select).
  { unfold dispatch.
    destruct Hf as [Hdec | (r & Hdec & [Hop | [Hop | [Hop Hnone]]])]; rewrite Hdec;
      [reflexivity | rewrite Hop; reflexivity | rewrite Hop; reflexivity |].
    rewrite Hop. cbn [String.eqb Ascii.eqb Bool.eqb].
    destruct (lookup_handler c "__auth__"); [discriminate Hnone | reflexivity]. }
  gof_at Hpc. rewrite Hd. gof_at Hpc. reflexivity.
Qed.

Lemma frames_dropped_witness :
  let w := outcome session_up in
  run [Run 1 (RecvMsg auth_ok); Run 1 Tau]%nat w = Some (goto 1 read_select w).
Proof.
  intros w.
  apply (frames_dropped (outcome session_up) 1%nat 0%nat auth_ok);
    [vm_compute; reflexivity | vm_compute; reflexivity |].
  right. exists {| Op := "auth"; Success := true; Message := "map[]" |}.
  split; [reflexivity|]. right. right. split; [reflexivity|].
  vm_compute. reflexivity.
Defined.

(** ** Unsubscribe *)

(** X14: [Unsubscribe] returns nil and removes the topic from the registry,
    that topic only; it sends nothing to the server.  Frames of the
    topic that keep arriving then fall through to the lookup of the
    wildcard. *)
Theorem Unsubscribe_removes_topic (c : WsClient) (topic : string) :
  let c' := fst (Unsubscribe c topic) in
  snd (Unsubscribe c topic) = None /\
  lookup_handler c' topic = None /\
  (forall t, t <> topic -> handlers c' !! t = handlers c !! t) /\
  IsConnected c' = IsConnected c /\ IsAuthenticated c' = IsAuthenticated c /\
  (forall w, client w = c -> panicked w = None ->
     step (Call (CallUnsubscribe topic)) w
     = Some (emit [EvReturn "Unsubscribe" None] (with_client c' w))) /\
  (forall f r, decoded f = Some r -> Op r = topic -> is_control topic = false ->
     dispatch c' f = read_wildcard f).
Proof.
  intros c'. subst c'. cbn [Unsubscribe fst snd].
  assert (Hnone : lookup_handler (set_handlers (delete topic (handlers c)) c) topic = None).
  { unfold lookup_handler. fields. now rewrite lookup_delete_eq. }
  split; [reflexivity|]. split; [exact Hnone|]. split.
  { intros t Ht. fields. apply lookup_delete_ne. congruence. }
  split; [reflexivity|]. split; [reflexivity|]. split.
  - intros w Hc Hp. unfold step. rewrite Hp. cbn [call_step Unsubscribe]. now rewrite Hc.
  - intros f r Hdec Hop Hctl. subst topic. unfold dispatch. rewrite Hdec.
    unfold is_control in Hctl.
    destruct (String.eqb (Op r) "auth"); [discriminate|].
    destruct (String.eqb (Op r) "ping"); [discriminate|].
    destruct (String.eqb (Op r) "subscribe"); [discriminate|].
    destruct (String.eqb (Op r) "execution_report") eqn:He.
    + apply String.eqb_eq in He. rewrite He in *.
      destruct (lookup_handler _ "execution_report"); [discriminate Hnone | reflexivity].
    + destruct (lookup_handler _ (Op r)); [discriminate Hnone | reflexivity].
Qed.

(** X15: [Subscribe] to a topic that was not registered, followed by
    [Unsubscribe], leaves the client exactly as it was before, while
    the server has been sent the subscribe frame and nothing since. *)
Theorem Subscribe_then_Unsubscribe (c : WsClient) (topic : string) (h : WsHandler)
    (k : nat) :
  IsAuthenticated c = true ->
  IsConnected c = true ->
  conn c = Some k ->
  handlers c !! topic = None ->
  exists c1,
    Subscribe c topic h None = (c1, None, [(c1, EvWriteJSON k (subscribeMsg topic))]) /\
    Unsubscribe c1 topic = (c, None).
Proof.
  unfold IsAuthenticated, IsConnected. intros Hauth Hconn Hk Hfree.
  unfold Subscribe, SendJSON. rewrite Hauth. cbn [negb]. fields. rewrite Hconn, Hk.
  eexists. split; [reflexivity|].
  unfold Unsubscribe. fields. rewrite delete_insert_id by exact Hfree.
  destruct c; reflexivity.
Qed.

Lemma Subscribe_then_Unsubscribe_witness :
  let c := set_isAuthenticated true
             (set_isConnected true (set_conn (Some 0%nat) (NewWsClient "key" "secret"))) in
  exists c1,
    Subscribe c "analytics" (UserHandler 1) None
    = (c1, None, [(c1, EvWriteJSON 0 (subscribeMsg "analytics"))]) /\
    Unsubscribe c1 "analytics" = (c, None).
Proof.
  intros c.
  exact (Subscribe_then_Unsubscribe c "analytics" (UserHandler 1) 0%nat
           eq_refl eq_refl eq_refl eq_refl).
Defined.

(** ** The signature is lower-case hex *)

Lemma be_bytes_range n x : Forall (fun b => 0 <= b < 256) (Sha256.be_bytes n x).
Proof.
  unfold Sha256.be_bytes. apply Forall_map, Forall_forall. intros i _.
  apply Z.mod_pos_bound. lia.
Qed.

Lemma sha256_sum_range msg : Forall (fun b => 0 <= b < 256) (Sha256.sum msg).
Proof.
  unfold Sha256.sum, Sha256.digest_bytes.
  repeat (apply Forall_app; split); apply be_bytes_range.
Qed.

Lemma hex_digit_in_table n :
  0 <= n < 16 -> In (Hex.digit n) (list_ascii_of_string Hex.hextable).
Proof.
  intros Hn. unfold Hex.digit.
  assert (Hm : (Z.to_nat n < 16)%nat) by lia.
  generalize dependent (Z.to_nat n). intros m Hm.
  do 16 (destruct m as [|m]; [cbn; tauto|]). lia.
Qed.

Lemma hex_alphabet bs :
  Forall (fun b => 0 <= b < 256) bs ->
  Forall (fun a => In a (list_ascii_of_string Hex.hextable))
         (list_ascii_of_string (Hex.EncodeToString bs)).
Proof.
  induction 1 as [|b bs Hb _ IH]; [constructor|].
  cbn [Hex.EncodeToString list_ascii_of_string].
  constructor; [|constructor; [|exact IH]]; apply hex_digit_in_table.
  - rewrite Z.shiftr_div_pow2 by lia. change (2 ^ 4) with 16.
    split; [apply Z.div_pos; lia | apply Z.div_lt_upper_bound; lia].
  - change 15 with (Z.ones 4). rewrite Z.land_ones by lia.
    change (2 ^ 4) with 16. apply Z.mod_pos_bound. lia.
Qed.

(** X16: Whatever the secret and the payload, both [sign] methods return 64
    characters drawn from [0123456789abcdef]: the header and the auth
    argument never carry an upper-case digit or any other byte. *)
Theorem sign_is_lowercase_hex (ws : WsClient) (rc : Client) (payload : string) :
  let hex s := Forall (fun a => In a (list_ascii_of_string "0123456789abcdef"))
                      (list_ascii_of_string s) in
  hex (sign ws payload) /\ hex (Client_sign rc payload) /\
  String.length (Client_sign rc payload) = 64%nat.
Proof.
  intros hex. subst hex. unfold sign, Client_sign, hmac_sha256_hex, Hmac.sum.
  split; [|split].
  - apply hex_alphabet, sha256_sum_range.
  - apply hex_alphabet, sha256_sum_range.
  - rewrite hex_length, sha256_sum_length. reflexivity.
Qed.

(** ** Reconnection by the read loop *)

Lemma lookup_old (ts l : list Pc) (tid : nat) (pc0 pc : Pc) :
  ts !! tid = Some pc0 -> (<[tid := pc]> ts ++ l) !! tid = Some pc.
Proof.
  intros H. rewrite lookup_app_l by (rewrite length_insert; eapply lookup_lt_Some; exact H).
  eapply lookup_goto. exact H.
Qed.

Lemma insert_old (ts l : list Pc) (tid : nat) (pc0 pc pc' : Pc) :
  ts !! tid = Some pc0 -> <[tid := pc]> (<[tid := pc']> ts ++ l) = <[tid := pc]> ts ++ l.
Proof.
  intros H. rewrite insert_app_l by (rewrite length_insert; eapply lookup_lt_Some; exact H).
  now rewrite insert_goto.
Qed.

Lemma lookup_new0 (ts : list Pc) (tid : nat) (pc a : Pc) r :
  (<[tid := pc]> ts ++ a :: r) !! length ts = Some a.
Proof. rewrite <- (length_insert ts tid pc). apply lookup_spawned0. Qed.

Lemma insert_new0 (ts : list Pc) (tid : nat) (pc a x : Pc) r :
  <[length ts := x]> (<[tid := pc]> ts ++ a :: r) = <[tid := pc]> ts ++ x :: r.
Proof. rewrite <- (length_insert ts tid pc) at 1. apply insert_spawned0. Qed.

Ltac gof_re Hpc :=
  repeat (progress (go; fields;
                    rewrite ?Hpc, ?(lookup_goto _ _ _ _ Hpc), ?insert_goto,
                      ?(lookup_old _ _ _ _ _ Hpc), ?(insert_old _ _ _ _ _ _ Hpc),
                      ?lookup_new0, ?insert_new0)).

(** X23: One schedule of a successful reconnection: the read loop fails
    with the reconnect flag set, its deferred function sleeps and calls
    [Connect], the dial succeeds, the auth frame is written,
    tempHandler is stored, and then the new read loop receives the
    confirmation.  The client is connected and authenticated again on
    the new socket and the registry still holds the caller's handlers,
    but no subscribe frame is written: after the sleep the wire sees
    the dial and the auth frame only.  The goroutines that were running
    are left alone; a new read loop is started beside them, and a new
    [keepAlive] exactly when [WebsocketKeepalive] is set. *)
Theorem reconnect_does_not_resubscribe (w : World) (tid k : nat) (e : string)
    (now : Time) (f : Frame) (r : WsResponse) :
  panicked w = None ->
  threads w !! tid = Some (read_blocked k) ->
  reconnect (client w) = true ->
  done (client w) = Open ->
  decoded f = Some r -> Op r = "auth"%string -> Success r = true ->
  let c := client w in
  let t1 := length (threads w) in
  let k' := sockets w in
  exists w',
    run [Run tid (RecvErr e); Run tid Tau; Run tid Tau;
         Run tid Tau; Run tid DialOk; Run tid Tau; Run tid Tau;
         Run tid (Now now None); Run tid Tau;
         Run t1 Tau; Run t1 Tau; Run t1 (RecvMsg f); Run t1 Tau; Run t1 Tau; Run t1 Tau;
         Run tid ChanRecv; Run tid Tau; Run tid Tau; Run tid Tau] w
    = Some w' /\
    IsConnected (client w') = true /\
    IsAuthenticated (client w') = true /\
    conn (client w') = Some k' /\
    handlers (client w') = delete "__auth__"%string (handlers c) /\
    threads w' = <[tid := Exited]> (threads w) ++ [read_select]
                 ++ (if WebsocketKeepalive w then [keep_select] else []) /\
    events (trace w')
    = events (trace w)
      ++ match errHandler c with Some id => [EvErrHandler id e] | None => [] end
      ++ [EvSleep (reconnectDelay c); EvDial (BaseURL c); EvWriteJSON k' (authMsg c now)].
Proof.
  intros Hp Hpc Hre Hdone Hdec Hop Hok c t1 k'. destruct w as [c0 ts cs n tr0 p ka].
  cbn [panicked client threads sockets trace WebsocketKeepalive] in *. subst p c t1 k'.
  destruct ka; (destruct (errHandler c0) as [id|] eqn:Herr; eexists).
  all: split;
    [ gof_re Hpc; rewrite Herr; gof_re Hpc; rewrite Hre; gof_re Hpc;
      unfold SendJSON; gof_re Hpc; rewrite Hdone; gof_re Hpc;
      unfold dispatch; rewrite Hdec, Hop; cbn [String.eqb Ascii.eqb Bool.eqb];
      unfold lookup_handler; gof_re Hpc; rewrite lookup_insert_eq; gof_re Hpc;
      rewrite Hdec, Hop; cbn [String.eqb Ascii.eqb Bool.eqb]; rewrite Hok; gof_re Hpc;
      reflexivity
    | cbn [client threads trace]; unfold IsConnected, IsAuthenticated; fields;
      rewrite delete_insert_eq; do 5 (split; [reflexivity|]);
      unfold events; rewrite !map_app; cbn [map snd app]; rewrite <- ?app_assoc; reflexivity ].
Qed.

Lemma reconnect_does_not_resubscribe_witness :
  let w := outcome (session_up ++ subscribe_both "analytics") in
  let c := client w in
  let t1 := length (threads w) in
  let k' := sockets w in
  exists w',
    run [Run 1 (RecvErr "unexpected EOF"); Run 1 Tau; Run 1 Tau;
         Run 1 Tau; Run 1 DialOk; Run 1 Tau; Run 1 Tau;
         Run 1 (Now clock None); Run 1 Tau;
         Run t1 Tau; Run t1 Tau; Run t1 (RecvMsg auth_ok); Run t1 Tau; Run t1 Tau; Run t1 Tau;
         Run 1 ChanRecv; Run 1 Tau; Run 1 Tau; Run 1 Tau]%nat w
    = Some w' /\
    IsConnected (client w') = true /\
    IsAuthenticated (client w') = true /\
    conn (client w') = Some k' /\
    handlers (client w') = delete "__auth__"%string (handlers c) /\
    threads w' = <[1%nat := Exited]> (threads w) ++ [read_select]
                 ++ (if WebsocketKeepalive w then [keep_select] else []) /\
    events (trace w')
    = events (trace w)
      ++ match errHandler c with Some id => [EvErrHandler id "unexpected EOF"] | None => [] end
      ++ [EvSleep (reconnectDelay c); EvDial (BaseURL c); EvWriteJSON k' (authMsg c clock)].
Proof.
  intros w.
  apply (reconnect_does_not_resubscribe w 1%nat 0%nat "unexpected EOF" clock auth_ok
           {| Op := "auth"; Success := true; Message := "map[]" |});
    first [reflexivity | vm_compute; reflexivity].
Defined.

(** * Properties of the REST client *)

Example canonical_keys :
  CanonicalMIMEHeaderKey "X-VERSIFI-API-KEY" = "X-Versifi-Api-Key"%string /\
  CanonicalMIMEHeaderKey "X-VERSIFI-API-SIGN" = "X-Versifi-Api-Sign"%string /\
  CanonicalMIMEHeaderKey "content-type" = "Content-Type"%string /\
  CanonicalMIMEHeaderKey "User-Agent" = "User-Agent"%string /\
  CanonicalMIMEHeaderKey "bad key" = "bad key"%string.
Proof. repeat split. Qed.

Example QueryEscape_known :
  QueryEscape "PARTIALLY FILLED&x=1/2~" = "PARTIALLY+FILLED%26x%3D1%2F2~"%string.
Proof. reflexivity. Qed.

Example Encode_sorted :
  Values_Encode (<["status" := ["NEW"]]> (<["limit" := ["10"]]> (<["offset" := ["5"]]> ∅)))
  = "limit=10&offset=5&status=NEW"%string.
Proof. vm_compute. reflexivity. Qed.

(** The options touch the headers only. *)
Lemma options_keep (r : request) (opts : list RequestOption) :
  let r' := foldl (fun r opt => apply_option opt r) r opts in
  method r' = method r /\ endpoint r' = endpoint r /\ query r' = query r /\
  body r' = body r /\ req_secType r' = req_secType r.
Proof.
  revert r. induction opts as [|opt opts IH]; intros r; cbn [foldl].
  - repeat split.
  - destruct (IH (apply_option opt r)) as (H1 & H2 & H3 & H4 & H5).
    cbn zeta in *. rewrite H1, H2, H3, H4, H5. destruct opt; repeat split.
Qed.

Lemma parseRequest_header (c : RestClient) (r : request) (opts : list RequestOption) :
  exists h, header (parseRequest c r opts) = Some h.
Proof. unfold parseRequest. eexists. reflexivity. Qed.

Ltac after_options r opts :=
  let H1 := fresh "Hm" in let H2 := fresh "He" in let H3 := fresh "Hq" in
  let H4 := fresh "Hb" in let H5 := fresh "Hs" in
  destruct (options_keep r opts) as (H1 & H2 & H3 & H4 & H5); cbn zeta in H1, H2, H3, H4, H5.

Lemma has_query_after (r : request) (opts : list RequestOption) :
  has_query (foldl (fun r opt => apply_option opt r) r opts) = has_query r.
Proof. after_options r opts. unfold has_query. now rewrite Hq. Qed.

Lemma encoded_query_after (r : request) (opts : list RequestOption) :
  encoded_query (foldl (fun r opt => apply_option opt r) r opts) = encoded_query r.
Proof. after_options r opts. unfold encoded_query. now rewrite Hq. Qed.

Lemma signed_payload_after (r : request) (opts : list RequestOption) :
  signed_payload (foldl (fun r opt => apply_option opt r) r opts) = signed_payload r.
Proof.
  unfold signed_payload. rewrite has_query_after, encoded_query_after.
  after_options r opts. now rewrite Hm, Hb.
Qed.

Lemma parseRequest_sign_header (c : RestClient) (r : request) (opts : list RequestOption) :
  req_secType r = secTypeSigned ->
  sign_header (parseRequest c r opts)
  = Some [Client_sign (Credentials c) (signed_payload r)].
Proof.
  intros Hsec. unfold sign_header, parseRequest. cbn [header set_header default].
  after_options r opts. cbn [req_secType set_fullURL]. rewrite Hs, Hsec.
  change (signed_payload (set_fullURL ?u ?x)) with (signed_payload x).
  rewrite signed_payload_after. unfold Header_Set at 1.
  change (CanonicalMIMEHeaderKey "X-VERSIFI-API-SIGN") with "X-Versifi-Api-Sign"%string.
  apply lookup_insert_eq.
Qed.

Lemma parseRequest_fullURL (c : RestClient) (r : request) (opts : list RequestOption) :
  fullURL (parseRequest c r opts)
  = (RestBaseURL c ++ endpoint r
     ++ if has_query r then "?" ++ encoded_query r else "")%string.
Proof.
  unfold parseRequest. cbn [fullURL set_header set_fullURL].
  rewrite has_query_after, encoded_query_after. after_options r opts. rewrite He.
  destruct (has_query r); [reflexivity|]. now rewrite string_app_empty.
Qed.

Lemma parseRequest_body (c : RestClient) (r : request) (opts : list RequestOption) :
  body (parseRequest c r opts) = body r.
Proof.
  unfold parseRequest. cbn [body set_header set_fullURL]. after_options r opts. exact Hb.
Qed.

(** X17: For a signed GET or DELETE request the signature header is the HMAC
    of the encoded query string, and that very string is what follows
    the question mark in the URL; without query parameters the HMAC is
    that of the empty string and the URL has no question mark.  The
    endpoint and the body are not signed, and no option changes any of
    this. *)
Theorem parseRequest_signs_query (c : RestClient) (r : request) (opts : list RequestOption) :
  req_secType r = secTypeSigned ->
  method r = "GET"%string \/ method r = "DELETE"%string ->
  let r' := parseRequest c r opts in
  let payload := if has_query r then encoded_query r else EmptyString in
  sign_header r' = Some [Client_sign (Credentials c) payload] /\
  fullURL r' = (RestBaseURL c ++ endpoint r
                ++ if has_query r then "?" ++ payload else "")%string /\
  body r' = body r.
Proof.
  intros Hsec Hmeth r' payload. subst r' payload.
  split; [|split].
  - rewrite parseRequest_sign_header by exact Hsec. unfold signed_payload.
    destruct Hmeth as [-> | ->]; reflexivity.
  - rewrite parseRequest_fullURL. destruct (has_query r); reflexivity.
  - apply parseRequest_body.
Qed.

Lemma parseRequest_signs_query_witness :
  let c := NewClient "key" "secret" in
  let r := ListOpenOrders_request {| limit := 10; offset := 0; status := "NEW" |} in
  let r' := parseRequest c r [WithHeader "X-Trace" "1"] in
  let payload := if has_query r then encoded_query r else EmptyString in
  sign_header r' = Some [Client_sign (Credentials c) payload] /\
  fullURL r' = (RestBaseURL c ++ endpoint r
                ++ if has_query r then "?" ++ payload else "")%string /\
  body r' = body r.
Proof.
  exact (parseRequest_signs_query (NewClient "key" "secret")
           (ListOpenOrders_request {| limit := 10; offset := 0; status := "NEW" |})
           [WithHeader "X-Trace" "1"] eq_refl (or_introl eq_refl)).
Defined.

(** X18: For a signed request of any other method (the POSTs that create
    orders) the signature header is the HMAC of the body as it is sent,
    or of the empty string when there is no body; the URL and its query
    are not signed. *)
Theorem parseRequest_signs_body (c : RestClient) (r : request) (opts : list RequestOption) :
  req_secType r = secTypeSigned ->
  method r <> "GET"%string -> method r <> "DELETE"%string ->
  let r' := parseRequest c r opts in
  sign_header r' = Some [Client_sign (Credentials c) (default EmptyString (body r))] /\
  body r' = body r.
Proof.
  intros Hsec Hget Hdel r'. subst r'. split.
  - rewrite parseRequest_sign_header by exact Hsec. unfold signed_payload.
    rewrite (proj2 (String.eqb_neq _ _) Hget), (proj2 (String.eqb_neq _ _) Hdel).
    reflexivity.
  - apply parseRequest_body.
Qed.

Lemma parseRequest_signs_body_witness :
  let c := NewClient "key" "secret" in
  let r := new_request "POST" "/v2/orders/algo/" (Some "{}"%string) in
  let r' := parseRequest c r [] in
  sign_header r' = Some [Client_sign (Credentials c) (default EmptyString (body r))] /\
  body r' = body r.
Proof.
  exact (parseRequest_signs_body (NewClient "key" "secret")
           (new_request "POST" "/v2/orders/algo/" (Some "{}"%string)) []
           eq_refl ltac:(discriminate) ltac:(discriminate)).
Defined.

(** X19: The batch cancellation is a DELETE that carries its ids in the body:
    whatever the ids, the signature is the HMAC of the empty string.
    The same holds of the order id in the path of a GET for one
    order. *)
Theorem CancelBatch_signature_ignores_ids (c : RestClient) (s : CancelBatchOrderService)
    (orderID : Z) (opts : list RequestOption) :
  let r := parseRequest c (CancelBatch_request s) opts in
  let g := parseRequest c (GetOrder_request orderID) opts in
  sign_header r = Some [Client_sign (Credentials c) ""] /\
  body r = Some (marshal_CancelBatchRequest (orderIDs s)) /\
  fullURL r = (RestBaseURL c ++ "/v2/orders/batch")%string /\
  sign_header g = Some [Client_sign (Credentials c) ""] /\
  fullURL g = (RestBaseURL c ++ "/v2/orders/" ++ FormatInt orderID)%string.
Proof.
  intros r g. subst r g.
  rewrite !parseRequest_sign_header by reflexivity.
  rewrite !parseRequest_fullURL, parseRequest_body.
  cbn [has_query CancelBatch_request GetOrder_request new_request query endpoint body].
  rewrite !string_app_empty. repeat split.
Qed.

(** ** Headers *)

Lemma options_last (r : request) (opts : list RequestOption) (key value : string) :
  default ∅ (header (foldl (fun r opt => apply_option opt r) r
                       (opts ++ [WithHeader key value])))
  !! CanonicalMIMEHeaderKey key = Some [value].
Proof.
  rewrite foldl_app. cbn [foldl apply_option header set_header default].
  unfold Header_Set. apply lookup_insert_eq.
Qed.

Lemma parseRequest_header_lookup (c : RestClient) (r : request) (opts : list RequestOption) :
  let h := default ∅ (header (parseRequest c r opts)) in
  let custom := default ∅ (header (foldl (fun r opt => apply_option opt r) r opts)) in
  h !! "User-Agent"%string = Some [UserAgent c] /\
  h !! "Content-Type"%string = Some ["application/json"%string] /\
  (req_secType r <> secTypeNone ->
   h !! "X-Versifi-Api-Key"%string = Some [ClientAPIKey (Credentials c)]) /\
  (forall k, k <> "User-Agent"%string -> k <> "Content-Type"%string ->
             k <> "X-Versifi-Api-Key"%string -> k <> "X-Versifi-Api-Sign"%string ->
             h !! k = custom !! k).
Proof.
  intros h custom. subst h custom. unfold parseRequest.
  cbn [header set_header set_fullURL default req_secType].
  after_options r opts. rewrite Hs. unfold Header_Set.
  change (CanonicalMIMEHeaderKey "User-Agent") with "User-Agent"%string.
  change (CanonicalMIMEHeaderKey "Content-Type") with "Content-Type"%string.
  change (CanonicalMIMEHeaderKey "X-VERSIFI-API-KEY") with "X-Versifi-Api-Key"%string.
  change (CanonicalMIMEHeaderKey "X-VERSIFI-API-SIGN") with "X-Versifi-Api-Sign"%string.
  split; [|split; [|split]].
  - destruct (req_secType r); simplify_map_eq; reflexivity.
  - destruct (req_secType r); simplify_map_eq; reflexivity.
  - intros Hsec. destruct (req_secType r); [congruence| |]; simplify_map_eq; reflexivity.
  - intros k H1 H2 H3 H4. destruct (req_secType r); simplify_map_eq; reflexivity.
Qed.

(** X20: Whatever options the caller passes, [parseRequest] sets
    [User-Agent] and [Content-Type] itself, and the key header unless
    the request needs no key: an option for one of these, in any
    spelling of its case, is overwritten.  Every other header the
    options set is passed on as the options left it. *)
Theorem parseRequest_headers (c : RestClient) (r : request) (opts : list RequestOption) :
  let h := default ∅ (header (parseRequest c r opts)) in
  let custom := default ∅ (header (foldl (fun r opt => apply_option opt r) r opts)) in
  h !! "User-Agent"%string = Some [UserAgent c] /\
  h !! "Content-Type"%string = Some ["application/json"%string] /\
  (req_secType r <> secTypeNone ->
   h !! "X-Versifi-Api-Key"%string = Some [ClientAPIKey (Credentials c)]) /\
  (forall k, k <> "User-Agent"%string -> k <> "Content-Type"%string ->
             k <> "X-Versifi-Api-Key"%string -> k <> "X-Versifi-Api-Sign"%string ->
             h !! k = custom !! k) /\
  (forall key value,
     let k := CanonicalMIMEHeaderKey key in
     k <> "User-Agent"%string -> k <> "Content-Type"%string ->
     k <> "X-Versifi-Api-Key"%string -> k <> "X-Versifi-Api-Sign"%string ->
     default ∅ (header (parseRequest c r (opts ++ [WithHeader key value]))) !! k
     = Some [value]).
Proof.
  intros h custom.
  destruct (parseRequest_header_lookup c r opts) as (H1 & H2 & H3 & H4).
  split; [exact H1|]. split; [exact H2|]. split; [exact H3|]. split; [exact H4|].
  intros key value k K1 K2 K3 K4.
  destruct (parseRequest_header_lookup c r (opts ++ [WithHeader key value]))
    as (_ & _ & _ & H5).
  cbn zeta in H5. rewrite (H5 k K1 K2 K3 K4). apply options_last.
Qed.

(** ** The query of ListOpenOrders *)

Lemma QueryEscape_unreserved (s : string) :
  Forall keeps (list_ascii_of_string s) -> QueryEscape s = s.
Proof.
  induction s as [|a s IH]; intros H; [reflexivity|].
  cbn [list_ascii_of_string] in H. inversion H as [|? ? [Hsp Hesc] Hrest]; subst.
  cbn [QueryEscape]. rewrite Hsp, Hesc, IH by exact Hrest. reflexivity.
Qed.

Lemma digit_char_keeps d : 0 <= d <= 9 -> keeps (digit_char d).
Proof.
  intros Hd. assert (Hc : d = 0 \/ d = 1 \/ d = 2 \/ d = 3 \/ d = 4 \/
                          d = 5 \/ d = 6 \/ d = 7 \/ d = 8 \/ d = 9) by lia.
  repeat (destruct Hc as [-> | Hc]; [split; reflexivity|]). subst d. split; reflexivity.
Qed.

Lemma format_digits_keeps fuel :
  forall n acc, Forall keeps (list_ascii_of_string acc) ->
    Forall keeps (list_ascii_of_string (format_digits fuel n acc)).
Proof.
  induction fuel as [|k IH]; intros n acc Hacc; [exact Hacc|].
  rewrite format_digits_S.
  assert (Hd : keeps (digit_char (n mod 10)))
    by (apply digit_char_keeps; pose proof (Z.mod_pos_bound n 10); lia).
  destruct (n <? 10); [|apply IH]; cbn [list_ascii_of_string]; constructor; assumption.
Qed.

(** A decimal numeral needs no escaping. *)
Lemma QueryEscape_FormatInt n : QueryEscape (FormatInt n) = FormatInt n.
Proof.
  apply QueryEscape_unreserved. unfold FormatInt. destruct (n <? 0).
  - cbn [list_ascii_of_string]. constructor; [split; reflexivity|].
    apply format_digits_keeps. constructor.
  - apply format_digits_keeps. constructor.
Qed.

Lemma write_pair_first (k x : string) :
  write_pair "" k x = (k ++ "=" ++ QueryEscape x)%string.
Proof. reflexivity. Qed.

Lemma write_pair_next (a : ascii) (b k x : string) :
  write_pair (String a b) k x = (String a b ++ "&" ++ k ++ "=" ++ QueryEscape x)%string.
Proof. unfold write_pair. cbn [String.eqb]. apply string_app_assoc. Qed.

Lemma Encode_limit_offset_status (l o st : option string) :
  let q := with_param "status" st (with_param "offset" o (with_param "limit" l ∅)) in
  Values_Encode q
  = String.concat "&" (param "limit" l ++ param "offset" o ++ param "status" st) /\
  negb (Nat.eqb (size q) 0)
  = match param "limit" l ++ param "offset" o ++ param "status" st with
    | [] => false
    | _ => true
    end.
Proof.
  destruct l as [x|], o as [y|], st as [z|]; cbn [with_param param app]; split;
    try reflexivity.
  all: unfold Values_Encode.
  all: match goal with
       | |- context [sorted_keys ?q] =>
           let ks := eval vm_compute in (sorted_keys q) in
           replace (sorted_keys q) with ks by (vm_compute; reflexivity)
       end.
  all: cbn [foldl]; simplify_map_eq.
  all: rewrite write_pair_first; cbn [QueryEscape].
  all: repeat (rewrite string_app_cons, write_pair_next); cbn [String.concat].
  all: repeat first [rewrite string_app_cons | rewrite string_app_nil
                    | rewrite string_app_assoc]; reflexivity.
Qed.

(** X21: [ListOpenOrders] sends a limit and an offset only when they are
    positive and a status only when it is not empty.  What it sends is
    [limit], [offset], [status] in this order, the numbers in decimal
    and the status escaped, joined by [&]; the URL carries them after a
    question mark, or no question mark when there is none, and the
    signature is the HMAC of exactly that string. *)
Theorem ListOpenOrders_url (c : RestClient) (s : ListOpenOrdersService)
    (opts : list RequestOption) :
  let r := parseRequest c (ListOpenOrders_request s) opts in
  let parts :=
    (if 0 <? limit s then [("limit=" ++ FormatInt (limit s))%string] else []) ++
    (if 0 <? offset s then [("offset=" ++ FormatInt (offset s))%string] else []) ++
    (if String.eqb (status s) "" then [] else [("status=" ++ QueryEscape (status s))%string]) in
  fullURL r = (RestBaseURL c ++ "/v2/orders"
               ++ match parts with [] => "" | _ => "?" ++ String.concat "&" parts end)%string /\
  sign_header r = Some [Client_sign (Credentials c) (String.concat "&" parts)].
Proof.
  intros r parts. subst r.
  rewrite parseRequest_fullURL, parseRequest_sign_header by
    (unfold ListOpenOrders_request; repeat case_match; reflexivity).
  set (l := if 0 <? limit s then Some (FormatInt (limit s)) else None).
  set (o := if 0 <? offset s then Some (FormatInt (offset s)) else None).
  set (st := if String.eqb (status s) "" then None else Some (status s)).
  assert (Hq : query (ListOpenOrders_request s)
               = match param "limit" l ++ param "offset" o ++ param "status" st with
                 | [] => None
                 | _ => Some (with_param "status" st
                                (with_param "offset" o (with_param "limit" l ∅)))
                 end).
  { unfold ListOpenOrders_request, l, o, st.
    destruct (0 <? limit s), (0 <? offset s), (String.eqb (status s) ""); reflexivity. }
  assert (Hparts : parts = param "limit" l ++ param "offset" o ++ param "status" st).
  { unfold parts, l, o, st.
    destruct (0 <? limit s), (0 <? offset s), (String.eqb (status s) "");
      cbn [param app]; rewrite ?QueryEscape_FormatInt; reflexivity. }
  assert (Hm : method (ListOpenOrders_request s) = "GET"%string)
    by (unfold ListOpenOrders_request; repeat case_match; reflexivity).
  assert (He : endpoint (ListOpenOrders_request s) = "/v2/orders"%string)
    by (unfold ListOpenOrders_request; repeat case_match; reflexivity).
  destruct (Encode_limit_offset_status l o st) as [Henc Hsize]. cbn zeta in Henc, Hsize.
  unfold signed_payload, has_query, encoded_query. rewrite Hm, He, Hq, Hparts.
  cbn [String.eqb Ascii.eqb Bool.eqb orb].
  destruct (param "limit" l ++ param "offset" o ++ param "status" st) as [|p ps] eqn:Hp.
  - split; reflexivity.
  - cbn [default]. rewrite Hsize. unfold id. rewrite Henc. split; reflexivity.
Qed.

Example ListOpenOrders_known :
  fullURL (parseRequest (NewClient "key" "secret")
             (ListOpenOrders_request {| limit := 25; offset := 0; status := "NEW" |}) [])
  = "https://api.versifi.io/v2/orders?limit=25&status=NEW"%string.
Proof. vm_compute. reflexivity. Qed.

(** [AddOrderID] appends: the ids are sent in the order they were
    added, after the ones set by [OrderIDs]; on a service without ids
    the body is [null], not an empty list. *)
Example CancelBatch_body_known :
  marshal_CancelBatchRequest (orderIDs (AddOrderID 7 (AddOrderID 5 (OrderIDs (Some [3]) {| orderIDs := None |}))))
  = ("{" ++ dquote ++ "ids" ++ dquote ++ ":[3,5,7]}")%string /\
  marshal_CancelBatchRequest (orderIDs {| orderIDs := None |})
  = ("{" ++ dquote ++ "ids" ++ dquote ++ ":null}")%string.
Proof. split; vm_compute; reflexivity. Qed.

(** ** order_pair.go *)

Section PairOrderProperties.

Import PairOrder.

(** X22: When the lead leg has parameters of its own, the parameters sent
    are those of the leg over those given to [Params]: on a key both
    have, the leg's value is sent.  If a map was given to [Params], it
    is that map which now holds the merged entries; building the body
    a second time sends the same body. *)
Theorem lead_params_merged {V float64 : Type} (s : @CreatePairOrderService V float64)
    (ld : @PairLeg V float64) (from : gmap string V) :
  lead s = Some ld ->
  Params ld = Some from ->
  let body := fst (build_body s) in
  let s' := snd (build_body s) in
  exists sent,
    LeadParams (ReqLead body) = Some sent /\
    (forall k v, from !! k = Some v -> sent !! k = Some v) /\
    (forall k, from !! k = None -> sent !! k = default ∅ (params s) !! k) /\
    params s' = (match params s with Some _ => Some sent | None => None end) /\
    LeadExchange (ReqLead body) = Exchange ld /\
    LeadSymbol (ReqLead body) = Symbol ld /\
    LeadLegRatio (ReqLead body) = LegRatio ld /\
    fst (build_body s') = body.
Proof.
  intros Hlead Hfrom body s'. subst body s'.
  destruct s as [cid ld0 ot ps sec sty]. cbn [lead params] in *. subst ld0.
  unfold build_body. cbn [lead params orderType clientOrderID secondary style].
  rewrite Hfrom. unfold merge.
  destruct ps as [into|]; cbn [fst snd ReqLead LeadParams LeadExchange LeadSymbol
    LeadLegRatio params default lead orderType clientOrderID secondary style];
    rewrite ?Hfrom; cbn [fst snd]; eexists; (split; [reflexivity|]).
  - split; [intros k v Hk; now apply lookup_union_Some_l|].
    split; [intros k Hk; now apply lookup_union_r|].
    split; [reflexivity|]. do 3 (split; [reflexivity|]).
    rewrite (assoc (∪)), (idemp (∪)). reflexivity.
  - split; [intros k v Hk; now apply lookup_union_Some_l|].
    split; [intros k Hk; now apply lookup_union_r|].
    repeat split.
Qed.

Lemma lead_params_merged_witness :
  let from : gmap string string := <["spread" := "5"%string]> ∅ in
  let ld := {| Exchange := "BINANCE_SPOT"; Symbol := "BTC/USDT";
               OrderType := "LIMIT"; LegRatio := Some 1%Z;
               MaxPositionLong := None; MaxPositionShort := None;
               MaxNotionalLong := None; MaxNotionalShort := None;
               Params := Some from |} in
  let s := mkService None (Some ld) "BASIS"
             (Some (<["spread" := "1"%string]> (<["duration" := "60"%string]> ∅)))
             None None in
  let body := fst (build_body s) in
  let s' := snd (build_body s) in
  exists sent,
    LeadParams (ReqLead body) = Some sent /\
    (forall k v, from !! k = Some v -> sent !! k = Some v) /\
    (forall k, from !! k = None -> sent !! k = default ∅ (params s) !! k) /\
    params s' = (match params s with Some _ => Some sent | None => None end) /\
    LeadExchange (ReqLead body) = Exchange ld /\
    LeadSymbol (ReqLead body) = Symbol ld /\
    LeadLegRatio (ReqLead body) = LegRatio ld /\
    fst (build_body s') = body.
Proof.
  intros from ld s.
  exact (lead_params_merged s ld from eq_refl eq_refl).
Defined.

End PairOrderProperties.
